(** * js99er disk images: a shallow embedding of [diskimage.ts]

    The development follows [src/app/emulator/classes/diskimage.ts]: the
    catalog operations, the single-file (TIFILES / V9T9 / plain) import and
    export, and the sector image codec of class [DiskImage].  JavaScript
    values are modelled as the code uses them: numbers that may be
    [undefined] or [NaN] as [option Z], typed arrays as lists of bytes,
    objects used as dictionaries as association lists in property order. *)

From Stdlib Require Import ZArith String Ascii List Lia Bool.
From Stdlib Require Import Sorting.Sorted Sorting.Permutation.
From stdpp Require Import base list.

Local Open Scope Z_scope.

(** ** JavaScript numbers, as far as the disk code uses them *)

Module JS.

(** A value of type [number] as it flows through the disk code: a finite
    integer, or [None] for a value that is not one ([undefined] read past
    the end of an array, [NaN], an infinite quotient).  Every operator the
    code applies to such a value treats these alike: bit operators read them
    as 0, arithmetic gives [NaN], and every comparison with a finite number
    is false. *)
Definition number := option Z.

Definition fin (z : Z) : number := Some z.

(** [ToInt32] of ECMA-262: the operand of every bit operator. *)
Definition ToInt32 (x : number) : Z :=
  match x with
  | Some z => (z + 2147483648) mod 4294967296 - 2147483648
  | None => 0
  end.

(** [ToUint8]: what a store into a [Uint8Array] keeps. *)
Definition ToUint8 (x : number) : Z :=
  match x with
  | Some z => z mod 256
  | None => 0
  end.

Definition band (a b : number) : Z := Z.land (ToInt32 a) (ToInt32 b).
Definition bor (a b : number) : Z := Z.lor (ToInt32 a) (ToInt32 b).
Definition shl (a : number) (k : Z) : Z :=
  ToInt32 (Some (Z.shiftl (ToInt32 a) (k mod 32))).
Definition shr (a : number) (k : Z) : Z := Z.shiftr (ToInt32 a) (k mod 32).

Definition add (a b : number) : number :=
  match a, b with Some x, Some y => Some (x + y) | _, _ => None end.
Definition sub (a b : number) : number :=
  match a, b with Some x, Some y => Some (x - y) | _, _ => None end.
Definition mul (a b : number) : number :=
  match a, b with Some x, Some y => Some (x * y) | _, _ => None end.

(** [Math.floor(a / b)]; a zero divisor gives an infinity or [NaN]. *)
Definition floorDiv (a b : number) : number :=
  match a, b with
  | Some x, Some y => if y =? 0 then None else Some (x / y)
  | _, _ => None
  end.

Definition ltb (a b : number) : bool :=
  match a, b with Some x, Some y => x <? y | _, _ => false end.
Definition leb (a b : number) : bool :=
  match a, b with Some x, Some y => x <=? y | _, _ => false end.
Definition gtb (a b : number) : bool := ltb b a.
Definition geb (a b : number) : bool := leb b a.

(** [a === k] and [a !== k] against a finite number [k]. *)
Definition eqb (a : number) (k : Z) : bool :=
  match a with Some x => x =? k | None => false end.
Definition neqb (a : number) (k : Z) : bool := negb (eqb a k).

(** *** Arrays

    [Uint8Array]: fixed length, elements are bytes, a store outside the
    bounds is dropped and a load outside them is [undefined].  A plain
    [number[]] grows when an element at or past its length is stored; the
    elements it skips are holes, which read as [undefined]. *)
Inductive array :=
| Uint8Array (bytes : list Z)
| Array (elems : list number).

Definition length (a : array) : Z :=
  match a with
  | Uint8Array l => Z.of_nat (List.length l)
  | Array l => Z.of_nat (List.length l)
  end.

Definition u8get (l : list Z) (i : number) : number :=
  match i with
  | Some z => if z <? 0 then None else l !! Z.to_nat z
  | None => None
  end.

Definition get (a : array) (i : number) : number :=
  match a with
  | Uint8Array l => u8get l i
  | Array l =>
      match i with
      | Some z => if z <? 0 then None else mjoin (l !! Z.to_nat z)
      | None => None
      end
  end.

Definition set (a : array) (i : Z) (v : number) : array :=
  if i <? 0 then a else
  match a with
  | Uint8Array l => Uint8Array (<[Z.to_nat i := ToUint8 v]> l)
  | Array l =>
      if i <? Z.of_nat (List.length l) then Array (<[Z.to_nat i := v]> l)
      else Array (l ++ replicate (Z.to_nat i - List.length l) None ++ [v])
  end.

(** [new Uint8Array(length)]: zero filled.  A negative length raises a
    [RangeError]; callers that can pass one test for it first. *)
Definition newUint8Array (len : number) : list Z :=
  match len with
  | Some z => replicate (Z.to_nat z) 0
  | None => []
  end.

(** [new Uint8Array(data)] for a plain array [data]. *)
Definition toUint8Array (a : array) : list Z :=
  match a with
  | Uint8Array l => l
  | Array l => map ToUint8 l
  end.

(** *** Strings

    Strings are sequences of code units below 256, which is what
    [String.fromCharCode] makes of a byte. *)
Definition charCode (c : ascii) : Z := Z.of_nat (nat_of_ascii c).
Definition fromCharCode (x : number) : ascii :=
  ascii_of_nat (Z.to_nat (ToUint8 x)).

Definition chars (s : string) : list ascii := list_ascii_of_string s.
Definition ofChars (l : list ascii) : string := string_of_list_ascii l.

Definition strlen (s : string) : Z := Z.of_nat (String.length s).

(** White space and line terminators of ECMA-262 below 256. *)
Definition isWhiteSpace (c : ascii) : bool :=
  let n := charCode c in
  (n =? 9) || (n =? 10) || (n =? 11) || (n =? 12) || (n =? 13)
  || (n =? 32) || (n =? 160).

Fixpoint trimStart (l : list ascii) : list ascii :=
  match l with
  | c :: l' => if isWhiteSpace c then trimStart l' else l
  | [] => []
  end.

Definition trim (s : string) : string :=
  ofChars (rev (trimStart (rev (trimStart (chars s))))).

(** [toUpperCase], as code units: the Unicode upper-case mapping of the
    code units below 256 (the sharp s becomes two letters, the micro sign
    and the y with diaeresis leave the range). *)
Definition upperCodes (c : ascii) : list Z :=
  let n := charCode c in
  if (97 <=? n) && (n <=? 122) then [n - 32]
  else if n =? 181 then [924]
  else if n =? 223 then [83; 83]
  else if (224 <=? n) && (n <=? 254) && negb (n =? 247) then [n - 32]
  else if n =? 255 then [376]
  else [n].

Definition toUpperCase (s : string) : list Z :=
  concat (map upperCodes (chars s)).

(** [s.substr(0, k)] *)
Definition substr0 (s : string) (k : nat) : string :=
  ofChars (take k (chars s)).

(** [c.match(/[0-9A-Za-z_\-]/)] on a single character *)
Definition isNameChar (c : ascii) : bool :=
  let n := charCode c in
  ((48 <=? n) && (n <=? 57)) || ((65 <=? n) && (n <=? 90))
  || ((97 <=? n) && (n <=? 122)) || (n =? 95) || (n =? 45).

End JS.

(** ** [disk.ts]: the enumerations *)

Module Disk.

(** Modelled from the spec: the constants of [disk.ts], which is not among
    the sources.  The status flags keep the file type in bit 0, the data
    type in bit 1 and the record type in bit 7, and flags 0 mean DATA,
    DISPLAY, FIXED (spec, sections 4.2 and 8). *)
Definition FileType_DATA : Z := 0.
Definition FileType_PROGRAM : Z := 1.
Definition DataType_DISPLAY : Z := 0.
Definition DataType_INTERNAL : Z := 1.
Definition RecordType_FIXED : Z := 0.
Definition RecordType_VARIABLE : Z := 1.

End Disk.

(** ** [diskfile.ts]: records and catalog entries *)

Module DiskFile.

(** Modelled from the spec: [Record], [FixedRecord] and [VariableRecord] of
    [diskfile.ts], which is not among the sources.  A record is an immutable
    payload; a fixed record also carries the declared length and does not
    pad its payload itself (spec, section 3). *)
Inductive Record :=
| FixedRecord (data : list JS.number) (length : JS.number)
| VariableRecord (data : list JS.number).

Definition getData (r : Record) : list JS.number :=
  match r with
  | FixedRecord data _ => data
  | VariableRecord data => data
  end.

(** Modelled from the spec: class [DiskFile] of [diskfile.ts], the File
    Catalog Entry of section 3: a name, the type metadata, the ordered
    records of a DATA file and the bytes of a PROGRAM file. *)
Record t := mk {
  name : string;
  fileType : Z;
  recordType : Z;
  recordLength : JS.number;
  dataType : Z;
  records : list Record;
  program : list Z
}.

(** [new DiskFile(name, fileType, recordType, recordLength, dataType)] *)
Definition new (name : string) (fileType recordType : Z)
    (recordLength : JS.number) (dataType : Z) : t :=
  mk name fileType recordType recordLength dataType [] [].

(** [open] and [close] leave the content as it is; [putRecord] appends. *)
Definition open (f : t) : t := f.
Definition close (f : t) : t := f.

Definition putRecord (r : Record) (f : t) : t :=
  mk (name f) (fileType f) (recordType f) (recordLength f) (dataType f)
     (records f ++ [r]) (program f).

Definition setProgram (p : list Z) (f : t) : t :=
  mk (name f) (fileType f) (recordType f) (recordLength f) (dataType f)
     (records f) p.

Definition getRecordCount (f : t) : Z := Z.of_nat (List.length (records f)).

Definition payloadLength (r : Record) : Z := Z.of_nat (List.length (getData r)).

(** Free bytes of the current sector after each variable record, and the
    sectors begun so far, by the packing rule of section 4.3: a record that
    does not fit with its length byte starts a new sector. *)
Definition variableLayout (rs : list Record) : Z * Z :=
  fold_left (fun '(sectors, sectorBytesLeft) r =>
               let len := payloadLength r in
               if sectorBytesLeft <=? len then (sectors + 1, 256 - 1 - len)
               else (sectors, sectorBytesLeft - 1 - len))
            rs (1, 256).

Definition ceilDiv (a b : Z) : Z := - ((- a) / b).

(** Modelled from the spec (section 3, derived quantities): the number of
    256-byte sectors the content occupies under its packing rule. *)
Definition getSectorCount (f : t) : Z :=
  if fileType f =? Disk.FileType_DATA then
    if recordType f =? Disk.RecordType_FIXED then
      match JS.floorDiv (Some 256) (recordLength f) with
      | Some perSector =>
          if 0 <? perSector then ceilDiv (getRecordCount f) perSector else 0
      | None => 0
      end
    else fst (variableLayout (records f))
  else ceilDiv (Z.of_nat (List.length (program f))) 256.

(** Modelled from the spec (section 3, derived quantities): the bytes used
    in the last sector, 0 for a full one. *)
Definition getEOFOffset (f : t) : Z :=
  if fileType f =? Disk.FileType_DATA then
    if recordType f =? Disk.RecordType_FIXED then
      match JS.floorDiv (Some 256) (recordLength f), recordLength f with
      | Some perSector, Some len =>
          if 0 <? perSector
          then ((getRecordCount f mod perSector) * len) mod 256 else 0
      | _, _ => 0
      end
    else (256 - snd (variableLayout (records f))) mod 256
  else Z.of_nat (List.length (program f)) mod 256.

End DiskFile.

(** ** [diskimage.ts] *)

Module DiskImage.

(** [DiskImageEvent]: the type and the file name of a notification.  Its
    [diskImage] field refers to the image that fired it; the model keeps
    what the handler finds in that image's cache when it is called. *)
Record DiskImageEvent := mkEvent {
  type : string;
  eventName : string;
  diskImage_binaryImage : option (list Z)
}.

Record PhysicalProperties := mkGeometry {
  totalSectors : JS.number;
  sectorsPerTrack : JS.number;
  tracksPerSide : JS.number;
  numberOfSides : JS.number;
  density : JS.number
}.

(** The object [files] used as a dictionary: its own properties in
    enumeration order, which is what [for ... in] walks.  Keys that are
    array indices come first, in numeric order; the others follow in the
    order they were added.  (Names of members of [Object.prototype] are not
    modelled.) *)
Definition dict := list (string * DiskFile.t).

(** State of a [DiskImage].  [eventHandler] tells whether a function is
    installed; [notified] is the trace of its calls, latest last. *)
Record t := mk {
  name : string;
  files : dict;
  geometry : PhysicalProperties;
  binaryImage : option (list Z);
  eventHandler : bool;
  notified : list DiskImageEvent
}.

Definition new (name : string) (eventHandler : bool) : t :=
  mk name [] (mkGeometry (Some 1440) (Some 18) (Some 2) (Some 2) (Some 2))
     None eventHandler [].

Definition setEventHandler (eventHandler : bool) (d : t) : t :=
  mk (name d) (files d) (geometry d) (binaryImage d) eventHandler (notified d).

Definition fireEvent (type name : string) (d : t) : t :=
  if eventHandler d then
    mk (DiskImage.name d) (files d) (geometry d) (binaryImage d)
       (eventHandler d) (notified d ++ [mkEvent type name (binaryImage d)])
  else d.

Definition getName (d : t) : string := name d.
Definition getFiles (d : t) : dict := files d.

(** *** Property access on [files] *)

Definition digit (c : ascii) : option Z :=
  let n := JS.charCode c in
  if (48 <=? n) && (n <=? 57) then Some (n - 48) else None.

Fixpoint decimal (acc : Z) (l : list ascii) : option Z :=
  match l with
  | [] => Some acc
  | c :: l' =>
      match digit c with
      | Some v => decimal (10 * acc + v) l'
      | None => None
      end
  end.

(** A key is an array index when it is the canonical decimal form of an
    integer below 2^32 - 1. *)
Definition arrayIndex (k : string) : option Z :=
  match JS.chars k with
  | [] => None
  | c :: l =>
      if (JS.charCode c =? 48) && negb (Nat.eqb (List.length l) 0) then None
      else match decimal 0 (c :: l) with
           | Some v => if v <? 4294967295 then Some v else None
           | None => None
           end
  end.

Definition hasKey (k : string) (o : dict) : bool :=
  existsb (fun e => String.eqb (fst e) k) o.

Fixpoint insertIndex (i : Z) (k : string) (v : DiskFile.t) (o : dict) : dict :=
  match o with
  | (k', v') :: o' =>
      match arrayIndex k' with
      | Some j => if j <? i then (k', v') :: insertIndex i k v o'
                  else (k, v) :: o
      | None => (k, v) :: o
      end
  | [] => [(k, v)]
  end.

(** [o[k] = v] *)
Definition setProperty (k : string) (v : DiskFile.t) (o : dict) : dict :=
  if hasKey k o
  then map (fun e => if String.eqb (fst e) k then (fst e, v) else e) o
  else match arrayIndex k with
       | Some i => insertIndex i k v o
       | None => o ++ [(k, v)]
       end.

(** [delete o[k]] *)
Definition deleteProperty (k : string) (o : dict) : dict :=
  List.filter (fun e => negb (String.eqb (fst e) k)) o.

(** [o[k]] *)
Definition getProperty (k : string) (o : dict) : option DiskFile.t :=
  snd <$> List.find (fun e => String.eqb (fst e) k) o.

(** *** Catalog operations *)

Definition invalidateBinaryImage (d : t) : t :=
  mk (name d) (files d) (geometry d) None (eventHandler d) (notified d).

Definition putFile (file : DiskFile.t) (d : t) : t :=
  let d := mk (name d) (setProperty (DiskFile.name file) file (files d))
              (geometry d) (binaryImage d) (eventHandler d) (notified d) in
  let d := invalidateBinaryImage d in
  fireEvent "fileAdded" (DiskFile.name file) d.

Definition getFile (fileName : string) (d : t) : option DiskFile.t :=
  getProperty fileName (files d).

Definition deleteFile (fileName : string) (d : t) : t :=
  let d := mk (name d) (deleteProperty fileName (files d))
              (geometry d) (binaryImage d) (eventHandler d) (notified d) in
  let d := invalidateBinaryImage d in
  fireEvent "fileDeleted" fileName d.

(** *** Geometry *)

Definition getSectorsPerAllocationUnit (d : t) : Z :=
  let totalSectors := totalSectors (geometry d) in
  if JS.ltb totalSectors (Some 1600) then 1
  else if JS.ltb totalSectors (Some 3200) then 2
  else if JS.ltb totalSectors (Some 6400) then 4
  else 8.

Definition getSectorsPerAllocationUnitForDataChainPointers (d : t) : Z :=
  if JS.ltb (totalSectors (geometry d)) (Some 4096) then 1
  else getSectorsPerAllocationUnit d.

(** [n % N] is the remainder of the truncated division. *)
Definition ceilN (n N : Z) : Z :=
  if negb (Z.rem n N =? 0) then n + (N - Z.rem n N) else n.

(** [Math.ceil(sectors / sectorsPerAllocationUnit)] *)
Definition sectorsToAllocationUnits (sectors sectorsPerAllocationUnit : Z) : Z :=
  - ((- sectors) / sectorsPerAllocationUnit).

(** *** Writers

    Each takes the array and the position and gives back the array as the
    call leaves it together with the position it returns. *)

Definition writeByte (data : JS.array) (n : Z) (b : JS.number) : JS.array * Z :=
  (JS.set data n (Some (JS.band b (Some 0x00FF))), n + 1).

Definition writeWord (data : JS.array) (n : Z) (w : JS.number) : JS.array * Z :=
  let data := JS.set data n (Some (JS.shr (Some (JS.band w (Some 0xFF00))) 8)) in
  let data := JS.set data (n + 1) (Some (JS.band w (Some 0x00FF))) in
  (data, n + 2).

Definition writeLEWord (data : JS.array) (n : Z) (w : JS.number) : JS.array * Z :=
  let data := JS.set data n (Some (JS.band w (Some 0x00FF))) in
  let data := JS.set data (n + 1) (Some (JS.shr (Some (JS.band w (Some 0xFF00))) 8)) in
  (data, n + 2).

Definition writeString (data : JS.array) (n : Z) (str : string) (padLen : Z)
  : JS.array * Z :=
  let st :=
    fold_left (fun '(data, n) c => (JS.set data n (Some (JS.charCode c)), n + 1))
              (take (Z.to_nat (Z.min (JS.strlen str) padLen)) (JS.chars str))
              (data, n) in
  fold_left (fun '(data, n) _ => (JS.set data n (Some 0x20), n + 1))
            (seqZ 0 (padLen - JS.strlen str)) st.

(** [for (j = 0; j < bytes.length; j++) n = writeByte(data, n, bytes[j])] *)
Definition writeBytes (data : JS.array) (n : Z) (bytes : list JS.number)
  : JS.array * Z :=
  fold_left (fun '(data, n) b => writeByte data n b) bytes (data, n).

(** The block that ends a sector of variable records, which the code has
    four times: when bytes are left, a 0xFF and then zeros until none is. *)
Definition closeSector (data : JS.array) (n sectorBytesLeft : Z)
  : JS.array * Z * Z :=
  if 0 <? sectorBytesLeft then
    let '(data, n) := writeByte data n (Some 0xFF) in
    let sectorBytesLeft := sectorBytesLeft - 1 in
    let '(data, n) :=
      writeBytes data n (replicate (Z.to_nat sectorBytesLeft) (Some 0)) in
    (data, n, 0)
  else (data, n, sectorBytesLeft).

(** *** Single-file export: [createTIFile] *)

Definition statusFlags (file : DiskFile.t) : Z :=
  JS.bor (Some (JS.bor (Some (JS.shl (Some (DiskFile.recordType file)) 7))
                       (Some (JS.shl (Some (DiskFile.dataType file)) 1))))
         (Some (DiskFile.fileType file)).

(** [recordLength + (recordType === VARIABLE ? 1 : 0)] *)
Definition recordSlot (file : DiskFile.t) : JS.number :=
  JS.add (DiskFile.recordLength file)
         (Some (if DiskFile.recordType file =? Disk.RecordType_VARIABLE
                then 1 else 0)).

(** The number of level 3 records of the header. *)
Definition level3Records (file : DiskFile.t) : Z :=
  if DiskFile.fileType file =? Disk.FileType_DATA then
    if DiskFile.recordType file =? Disk.RecordType_FIXED
    then DiskFile.getRecordCount file else DiskFile.getSectorCount file
  else 0.

(** [while ((n & 0xFF) !== 0) n = writeByte(data, n, 0)]: at most 255 turns. *)
Fixpoint alignSector (fuel : nat) (data : JS.array) (n : Z) : JS.array * Z :=
  match fuel with
  | O => (data, n)
  | S fuel =>
      if negb (JS.band (Some n) (Some 0xFF) =? 0) then
        let '(data, n) := writeByte data n (Some 0) in
        alignSector fuel data n
      else (data, n)
  end.

(** Body of the loop over the records of a FIXED file in [createTIFile];
    the state is the array, the position and [recCnt]. *)
Definition createTIFile_fixed (recordPerSector : JS.number)
    (st : JS.array * Z * Z) (r : DiskFile.Record) : JS.array * Z * Z :=
  let '(data, n, recCnt) := st in
  let '(data, n) := writeBytes data n (DiskFile.getData r) in
  let recCnt := recCnt + 1 in
  if JS.eqb recordPerSector recCnt then
    let '(data, n) := alignSector 256 data n in
    (data, n, 0)
  else (data, n, recCnt).

(** Body of the loop over the records of a VARIABLE file in
    [createTIFile]; the state is the array, the position and
    [sectorBytesLeft]. *)
Definition createTIFile_variable (st : JS.array * Z * Z) (r : DiskFile.Record)
  : JS.array * Z * Z :=
  let '(data, n, sectorBytesLeft) := st in
  let recData := DiskFile.getData r in
  let len := Z.of_nat (List.length recData) in
  let '(data, n, sectorBytesLeft) :=
    if sectorBytesLeft <=? len then
      let '(data, n, _) := closeSector data n sectorBytesLeft in
      (data, n, 256)
    else (data, n, sectorBytesLeft) in
  let '(data, n) := writeByte data n (Some len) in
  let sectorBytesLeft := sectorBytesLeft - 1 in
  let '(data, n) := writeBytes data n recData in
  (data, n, sectorBytesLeft - len).

(** The header of 128 bytes. *)
Definition createTIFile_header (fileName : string) (file : DiskFile.t)
  : JS.array * Z :=
  let data := JS.Array [] in
  let n := 0 in
  let '(data, n) := writeByte data n (Some 0x07) in
  let '(data, n) := writeString data n "TIFILES" 7 in
  let '(data, n) := writeWord data n (Some (DiskFile.getSectorCount file)) in
  let '(data, n) := writeByte data n (Some (statusFlags file)) in
  let '(data, n) :=
    writeByte data n
      (if (DiskFile.fileType file =? Disk.FileType_DATA)
          && JS.gtb (DiskFile.recordLength file) (Some 0)
       then JS.floorDiv (Some 256) (recordSlot file) else Some 0) in
  let '(data, n) := writeByte data n (Some (DiskFile.getEOFOffset file)) in
  let '(data, n) := writeByte data n (DiskFile.recordLength file) in
  let '(data, n) := writeLEWord data n (Some (level3Records file)) in
  let '(data, n) := writeString data n fileName 10 in
  fold_left (fun '(data, _) n => (JS.set data n (Some 0), n + 1))
            (seqZ n (128 - n)) (data, n).

(** The content that follows the header. *)
Definition createTIFile_content (file : DiskFile.t) (data : JS.array) (n : Z)
  : JS.array * Z :=
  if DiskFile.fileType file =? Disk.FileType_DATA then
    let records := DiskFile.records file in
    if DiskFile.recordType file =? Disk.RecordType_FIXED then
      let recordPerSector := JS.floorDiv (Some 256) (DiskFile.recordLength file) in
      let '(data, n, _) :=
        fold_left (createTIFile_fixed recordPerSector) records (data, n, 0) in
      (data, n)
    else
      let '(data, n, sectorBytesLeft) :=
        fold_left createTIFile_variable records (data, n, 256) in
      let '(data, n, _) := closeSector data n sectorBytesLeft in
      (data, n)
  else
    fold_left (fun '(data, n) b => (JS.set data n (Some b), n + 1))
              (DiskFile.program file) (data, n).

Definition createTIFile (fileName : string) (d : t) : option (list Z) :=
  match getFile fileName d with
  | Some file =>
      let '(data, n) := createTIFile_header fileName file in
      let '(data, n) := createTIFile_content file data n in
      Some (JS.toUint8Array data)
  | None => None
  end.

(** *** Single-file import: [loadTIFile] *)

(** [for (i = lo; i < hi; i++)] with a body that leaves [i] and [hi] alone;
    a bound that is not a number admits no turn. *)
Definition forZ {S : Type} (lo : Z) (hi : JS.number) (body : Z -> S -> S) (s : S) : S :=
  match hi with
  | Some h => fold_left (fun s i => body i s) (seqZ lo (h - lo)) s
  | None => s
  end.

(** The printable bytes among [fileBuffer[from] .. fileBuffer[from + count - 1]],
    as characters: the loop that reads a name. *)
Definition readName (fileBuffer : list Z) (from : JS.number) (count : Z) : string :=
  JS.ofChars
    (forZ 0 (Some count)
       (fun i acc =>
          let ch := JS.u8get fileBuffer (JS.add from (Some i)) in
          if JS.geb ch (Some 32) && JS.ltb ch (Some 128)
          then acc ++ [JS.fromCharCode ch] else acc)
       []).

(** The characters of [fileName] that match, while [room] holds. *)
Definition filterName (room : string -> string -> bool) (fileName : string) : string :=
  fold_left (fun tiFileName c =>
               if JS.isNameChar c && room fileName tiFileName
               then String.append tiFileName (String c EmptyString)
               else tiFileName)
            (JS.chars fileName) EmptyString.

(** What the three header formats leave in the local variables. *)
Record header := mkHeader {
  tiFileName : string;
  sectors : JS.number;
  recsPerSector : JS.number;
  eofOffset : JS.number;
  recordLength : JS.number;
  recordType : Z;
  datatype : Z;
  fileType : Z;
  fileLength : JS.number;
  sectorOffset : Z;
  pcFormat : bool
}.

(** [sectors * 256 - (eofOffset > 0 ? 256 - eofOffset : 0)] *)
Definition contentLength (sectors eofOffset : JS.number) : JS.number :=
  JS.sub (JS.mul sectors (Some 256))
         (if JS.gtb eofOffset (Some 0) then JS.sub (Some 256) eofOffset else Some 0).

Definition isTIFILES (fileBuffer : list Z) : bool :=
  JS.eqb (JS.u8get fileBuffer (Some 0)) 0x07
  && String.eqb
       (JS.ofChars (map (fun i => JS.fromCharCode (JS.u8get fileBuffer (Some i)))
                        (seqZ 1 7)))
       "TIFILES".

Definition isV9T9 (fileName : string) (fileBuffer : list Z) : bool :=
  let id := map (fun i => JS.fromCharCode (JS.u8get fileBuffer (Some i))) (seqZ 1 7) in
  let head := JS.ofChars (JS.fromCharCode (JS.u8get fileBuffer (Some 0)) :: id) in
  bool_decide (JS.toUpperCase (JS.trim head)
               = JS.toUpperCase (JS.trim (JS.substr0 fileName 8))).

Definition readHeader (fileName : string) (fileBuffer : list Z)
    (ignoreTIFileName : bool) : header :=
  let at_ i := JS.u8get fileBuffer (Some i) in
  if isTIFILES fileBuffer then
    let tiFileName :=
      if negb ignoreTIFileName && JS.neqb (at_ 0x10) 0xCA
      then JS.trim (readName fileBuffer (Some 0x10) 10)
      else EmptyString in
    let tiFileName :=
      if 0 <? JS.strlen tiFileName then tiFileName
      else filterName (fun _ tiFileName => JS.strlen tiFileName <? 10) fileName in
    let sectors := JS.bor (Some (JS.shl (at_ 0x8) 8)) (at_ 0x9) in
    let flags := at_ 0xA in
    let eofOffset := at_ 0xC in
    mkHeader tiFileName (Some sectors) (at_ 0xB) eofOffset (at_ 0xD)
      (JS.shr (Some (JS.band flags (Some 0x80))) 7)
      (JS.shr (Some (JS.band flags (Some 0x02))) 1)
      (JS.band flags (Some 0x01))
      (contentLength (Some sectors) eofOffset) 0x80 false
  else if isV9T9 fileName fileBuffer then
    let tiFileName := JS.trim (readName fileBuffer (Some 0) 10) in
    let flags := at_ 0x0C in
    let sectors := JS.add (Some (JS.shl (at_ 0x0E) 8)) (at_ 0x0F) in
    let eofOffset := at_ 0x10 in
    mkHeader tiFileName sectors (at_ 0x0D) eofOffset (at_ 0x11)
      (JS.shr (Some (JS.band flags (Some 0x80))) 7)
      (JS.shr (Some (JS.band flags (Some 0x02))) 1)
      (JS.band flags (Some 0x01))
      (contentLength sectors eofOffset) 0x80 false
  else
    let tiFileName :=
      filterName (fun fileName _ => JS.strlen fileName <? 10) fileName in
    let length := Z.of_nat (List.length fileBuffer) in
    mkHeader tiFileName (Some (length / 256)) (Some 3) None (Some 80)
      Disk.RecordType_FIXED Disk.DataType_DISPLAY Disk.FileType_DATA
      (Some length) 0 true.

(** One sector of variable records starting at [fileBuffer[i]]: the loop
    that [loadTIFile] and [loadBinaryImage] both have.  Every turn of the
    [while] uses up a byte of the sector, so 256 turns are never reached. *)
Fixpoint readVariableRecords (fuel : nat) (fileBuffer : list Z)
    (recordLength : JS.number) (i sectorBytesLeft : Z) (file : DiskFile.t)
  : DiskFile.t :=
  match fuel with
  | O => file
  | S fuel =>
      if JS.neqb recordLength 0xFF && (0 <? sectorBytesLeft) then
        let count :=
          match recordLength with
          | Some len => Z.max 0 (Z.min len sectorBytesLeft)
          | None => 0
          end in
        let data := map (fun j => JS.u8get fileBuffer (Some (i + j))) (seqZ 0 count) in
        let i := i + count in
        let sectorBytesLeft := sectorBytesLeft - count in
        let file := DiskFile.putRecord (DiskFile.VariableRecord data) file in
        if 0 <? sectorBytesLeft then
          readVariableRecords fuel fileBuffer (JS.u8get fileBuffer (Some i))
                              (i + 1) (sectorBytesLeft - 1) file
        else readVariableRecords fuel fileBuffer recordLength i sectorBytesLeft file
      else file
  end.

Definition readVariableSector (fileBuffer : list Z) (i : Z) (file : DiskFile.t)
  : DiskFile.t :=
  readVariableRecords 256 fileBuffer (JS.u8get fileBuffer (Some i)) (i + 1) 255 file.

(** The [while] loop over a plain (PC) file: [data] collects a record, a
    pair of bytes that looks like a line end is skipped after a full one. *)
Fixpoint readPlainRecords (fuel : nat) (fileBuffer : list Z)
    (recordLength : JS.number) (i : Z) (data : list JS.number) (file : DiskFile.t)
  : list JS.number * DiskFile.t :=
  match fuel with
  | O => (data, file)
  | S fuel =>
      if i <? Z.of_nat (List.length fileBuffer) then
        let data := data ++ [JS.u8get fileBuffer (Some i)] in
        let i := i + 1 in
        if JS.eqb recordLength (Z.of_nat (List.length data)) then
          let file :=
            DiskFile.putRecord (DiskFile.FixedRecord data recordLength) file in
          let i :=
            if JS.eqb (JS.u8get fileBuffer (Some i)) 0xd
               || JS.eqb (JS.u8get fileBuffer (Some (i + 1))) 0xa
            then i + 2 else i in
          readPlainRecords fuel fileBuffer recordLength i [] file
        else readPlainRecords fuel fileBuffer recordLength i data file
      else (data, file)
  end.

(** How a call ends: with a value, or with the [RangeError] that
    [new Uint8Array] raises for a negative length. *)
Inductive completion (A : Type) :=
| Return (a : A)
| RangeError.
Arguments Return {A} a.
Arguments RangeError {A}.

(** The entry built from a buffer that is long enough. *)
Definition readContent (fileBuffer : list Z) (h : header) : completion DiskFile.t :=
  if fileType h =? Disk.FileType_DATA then
    let file := DiskFile.new (tiFileName h) (fileType h) (recordType h)
                             (recordLength h) (datatype h) in
    let file := DiskFile.open file in
    let file :=
      if recordType h =? Disk.RecordType_FIXED then
        if negb (pcFormat h) then
          forZ 0 (sectors h) (fun sector =>
            forZ 0 (recsPerSector h) (fun rec file =>
              let start := JS.add (Some (sector * 256))
                                  (JS.mul (Some rec) (recordLength h)) in
              if JS.ltb start (fileLength h) then
                let data :=
                  forZ 0 (recordLength h) (fun i data =>
                    data ++ [JS.u8get fileBuffer
                               (JS.add (JS.add (Some (sectorOffset h)) start) (Some i))])
                    [] in
                DiskFile.putRecord (DiskFile.FixedRecord data (recordLength h)) file
              else file)) file
        else
          let '(data, file) :=
            readPlainRecords (List.length fileBuffer) fileBuffer (recordLength h)
                             0 [] file in
          if 0 <? Z.of_nat (List.length data)
          then DiskFile.putRecord (DiskFile.FixedRecord data (recordLength h)) file
          else file
      else
        forZ 0 (sectors h) (fun sector file =>
          readVariableSector fileBuffer (sectorOffset h + sector * 256) file) file in
    Return (DiskFile.close file)
  else
    let file := DiskFile.new (tiFileName h) (fileType h) 0 (Some 0) 0 in
    if JS.ltb (fileLength h) (Some 0) then RangeError
    else
      let program :=
        forZ 0 (fileLength h) (fun i program =>
          program ++ [JS.ToUint8 (JS.u8get fileBuffer (Some (sectorOffset h + i)))])
          [] in
      Return (DiskFile.setProgram program file).

(** [loadTIFile(fileName, fileBuffer, ignoreTIFileName)]: the entry it
    returns ([None] for [null]) and the image it leaves. *)
Definition loadTIFile (fileName : string) (fileBuffer : option (list Z))
    (ignoreTIFileName : bool) (d : t) : completion (option DiskFile.t * t) :=
  match fileBuffer with
  | Some fileBuffer =>
      if 0x80 <? Z.of_nat (List.length fileBuffer) then
        let h := readHeader fileName fileBuffer ignoreTIFileName in
        if JS.geb (Some (Z.of_nat (List.length fileBuffer)))
                  (JS.add (Some (sectorOffset h)) (fileLength h)) then
          match readContent fileBuffer h with
          | Return file => Return (Some file, putFile file d)
          | RangeError => RangeError
          end
        else Return (None, d)
      else Return (None, d)
  | None => Return (None, d)
  end.

(** *** Disk image decode: [loadBinaryImage] *)

(** [(fileBuffer[i] << 8) + fileBuffer[i + 1]] *)
Definition readWord (fileBuffer : list Z) (i : JS.number) : JS.number :=
  JS.add (Some (JS.shl (JS.u8get fileBuffer i) 8))
         (JS.u8get fileBuffer (JS.add i (Some 1))).

(** The records of one sector of a FIXED file. *)
Definition readFixedSector (fileBuffer : list Z)
    (recordsPerSector recordLength : JS.number) (sector : Z) (file : DiskFile.t)
  : DiskFile.t :=
  forZ 0 recordsPerSector (fun recordIndex file =>
    let data :=
      forZ 0 recordLength (fun i data =>
        data ++ [JS.u8get fileBuffer
                   (JS.add (JS.add (Some (sector * 256))
                                   (JS.mul (Some recordIndex) recordLength))
                           (Some i))])
        [] in
    DiskFile.putRecord (DiskFile.FixedRecord data recordLength) file) file.

(** What the loops over the data chain keep: the entry, the program bytes
    read so far, and [sectorsLeft]. *)
Definition chainState : Type := DiskFile.t * list JS.number * Z.

(** [for (sector = startSector; sector <= endSector; sector++)], over the
    sectors still to visit; the [break] of the VARIABLE case leaves it. *)
Fixpoint readRun (fileBuffer : list Z) (fileType recordType : Z)
    (recordsPerSector recordLength endOfFileOffset : JS.number)
    (run : list Z) (st : chainState) : chainState :=
  match run with
  | [] => st
  | sector :: run =>
      let '(diskFile, program, sectorsLeft) := st in
      let continue st :=
        readRun fileBuffer fileType recordType recordsPerSector recordLength
                endOfFileOffset run st in
      if fileType =? Disk.FileType_DATA then
        if recordType =? Disk.RecordType_FIXED then
          continue (readFixedSector fileBuffer recordsPerSector recordLength
                                    sector diskFile,
                    program, sectorsLeft - 1)
        else
          let i := sector * 256 in
          if i <? Z.of_nat (List.length fileBuffer) then
            continue (readVariableSector fileBuffer i diskFile,
                      program, sectorsLeft - 1)
          else st
      else if 0 <? sectorsLeft then
        let count :=
          if (1 <? sectorsLeft) || ((sectorsLeft =? 1) && JS.eqb endOfFileOffset 0)
          then Some 256 else endOfFileOffset in
        let program :=
          forZ 0 count (fun i program =>
            program ++ [JS.u8get fileBuffer (Some (sector * 256 + i))]) program in
        continue (diskFile, program, sectorsLeft - 1)
      else continue (diskFile, program, sectorsLeft - 1)
  end.

(** [for (index = 0; index < 0x4C && sectorsLeft > 0; index++)], over the
    indices still to visit; [nLast] is the offset the last pointer ended at. *)
Fixpoint readChain (fileBuffer : list Z) (sectorsPerAU : Z)
    (fileDescriptorRecord : JS.number) (fileType recordType : Z)
    (recordsPerSector recordLength endOfFileOffset : JS.number)
    (indices : list Z) (nLast : Z) (st : chainState) : chainState :=
  match indices with
  | [] => st
  | dataChainPointerIndex :: indices =>
      let '(_, _, sectorsLeft) := st in
      if 0 <? sectorsLeft then
        let dataChainPointer :=
          JS.add (JS.add fileDescriptorRecord (Some 0x1C))
                 (Some (3 * dataChainPointerIndex)) in
        let b0 := JS.u8get fileBuffer dataChainPointer in
        let b1 := JS.u8get fileBuffer (JS.add dataChainPointer (Some 1)) in
        let b2 := JS.u8get fileBuffer (JS.add dataChainPointer (Some 2)) in
        let m := JS.bor (Some (JS.shl (Some (JS.band b1 (Some 0x0F))) 8)) b0
                 * sectorsPerAU in
        let n := JS.bor (Some (JS.shl b2 4))
                        (Some (JS.shr (Some (JS.band b1 (Some 0xF0))) 4)) in
        let continue nLast st :=
          readChain fileBuffer sectorsPerAU fileDescriptorRecord fileType
                    recordType recordsPerSector recordLength endOfFileOffset
                    indices nLast st in
        if negb (m =? 0) then
          let startSector := m in
          let endSector := m + n - (nLast + 1) in
          continue n
            (readRun fileBuffer fileType recordType recordsPerSector
                     recordLength endOfFileOffset
                     (seqZ startSector (endSector - startSector + 1)) st)
        else continue nLast st
      else st
  end.

(** The entry that a File Descriptor Record in sector
    [fileDescriptorSectorNo] describes. *)
Definition readDescriptor (fileBuffer : list Z) (sectorsPerAU : Z)
    (fileDescriptorSectorNo : JS.number) : DiskFile.t :=
  let fileDescriptorRecord := JS.mul fileDescriptorSectorNo (Some 256) in
  let at_ k := JS.u8get fileBuffer (JS.add fileDescriptorRecord (Some k)) in
  let fileName := JS.trim (readName fileBuffer fileDescriptorRecord 10) in
  let statusFlags := at_ 0x0C in
  let recordType := JS.shr (Some (JS.band statusFlags (Some 0x80))) 7 in
  let datatype := JS.shr (Some (JS.band statusFlags (Some 0x02))) 1 in
  let fileType := JS.band statusFlags (Some 0x01) in
  let recordsPerSector := at_ 0x0D in
  let sectorsAllocated :=
    readWord fileBuffer (JS.add fileDescriptorRecord (Some 0x0E)) in
  let endOfFileOffset := at_ 0x10 in
  let recordLength := at_ 0x11 in
  let diskFile :=
    if fileType =? Disk.FileType_DATA
    then DiskFile.new fileName fileType recordType recordLength datatype
    else DiskFile.new fileName fileType 0 (Some 0) 0 in
  let diskFile := DiskFile.open diskFile in
  let '(diskFile, program, _) :=
    match sectorsAllocated with
    | Some sectorsLeft =>
        readChain fileBuffer sectorsPerAU fileDescriptorRecord fileType
                  recordType recordsPerSector recordLength endOfFileOffset
                  (seqZ 0 0x4C) (-1) (diskFile, [], sectorsLeft)
    | None => (diskFile, [], 0)
    end in
  let diskFile := DiskFile.close diskFile in
  if fileType =? Disk.FileType_PROGRAM
  then DiskFile.setProgram (map JS.ToUint8 program) diskFile
  else diskFile.

(** The body of the loop over the 128 slots of the descriptor index. *)
Definition loadBinaryImage_slot (fileBuffer : list Z) (sectorsPerAU : Z)
    (fileDescriptorIndex : Z) (d : t) : t :=
  let fileDescriptorSectorNo :=
    readWord fileBuffer (Some (0x100 + fileDescriptorIndex * 2)) in
  if JS.neqb fileDescriptorSectorNo 0
  then putFile (readDescriptor fileBuffer sectorsPerAU fileDescriptorSectorNo) d
  else d.

Definition loadBinaryImage (fileBuffer : list Z) (d : t) : t :=
  let volumeName := JS.trim (readName fileBuffer (Some 0) 10) in
  let totalSectors := readWord fileBuffer (Some 0x0A) in
  let sectorsPerAU := getSectorsPerAllocationUnitForDataChainPointers d in
  let sectorsPerTrack := JS.u8get fileBuffer (Some 0x0C) in
  let tracksPerSide := JS.u8get fileBuffer (Some 0x11) in
  let numberOfSides := JS.u8get fileBuffer (Some 0x12) in
  let density := JS.u8get fileBuffer (Some 0x13) in
  let d := mk (name d) [] (geometry d) (binaryImage d) (eventHandler d)
              (notified d) in
  let d :=
    fold_left (fun d fileDescriptorIndex =>
                 loadBinaryImage_slot fileBuffer sectorsPerAU fileDescriptorIndex d)
              (seqZ 0 128) d in
  mk volumeName (files d)
     (mkGeometry totalSectors sectorsPerTrack tracksPerSide numberOfSides density)
     (Some fileBuffer) (eventHandler d) (notified d).

(** *** The sorted catalog and the disk image encode

    [String.prototype.localeCompare] is the collation of the host, which
    the language leaves to the implementation; the code that depends on it
    takes it as a parameter. *)

Section Collation.

Variable localeCompare : string -> string -> Z.

(** [Array.prototype.sort] with the comparator
    [(a, b) => a.getName().localeCompare(b.getName())]: a stable sort, here
    by insertion from the right. *)
Fixpoint sortInsert (a : DiskFile.t) (l : list DiskFile.t) : list DiskFile.t :=
  match l with
  | [] => [a]
  | b :: l' =>
      if localeCompare (DiskFile.name a) (DiskFile.name b) <=? 0
      then a :: b :: l'
      else b :: sortInsert a l'
  end.

Definition sort (l : list DiskFile.t) : list DiskFile.t :=
  foldr sortInsert [] l.

Definition getFilesArray (d : t) : list DiskFile.t :=
  let filesArray := map snd (files d) in
  sort filesArray.

(** [dskImg[k] |= bits] *)
Definition orByte (dskImg : JS.array) (k : Z) (bits : Z) : JS.array :=
  JS.set dskImg k (Some (JS.bor (JS.get dskImg (Some k)) (Some bits))).

(** [dskImg[0x38 + (i >> 3)] |= (1 << (i & 7))] *)
Definition markAllocated (dskImg : JS.array) (i : Z) : JS.array :=
  orByte dskImg (0x38 + JS.shr (Some i) 3)
         (JS.shl (Some 1) (JS.band (Some i) (Some 7))).

(** Body of the loop over the records of a FIXED file; the state is the
    image, the position, [sectorNo] and [recCnt]. *)
Definition createBinaryImage_fixed (recordPerSector : JS.number)
    (st : JS.array * Z * Z * Z) (r : DiskFile.Record) : JS.array * Z * Z * Z :=
  let '(dskImg, n, sectorNo, recCnt) := st in
  let '(dskImg, n) := writeBytes dskImg n (DiskFile.getData r) in
  let recCnt := recCnt + 1 in
  if JS.eqb recordPerSector recCnt then
    let sectorNo := sectorNo + 1 in
    (dskImg, sectorNo * 256, sectorNo, 0)
  else (dskImg, n, sectorNo, recCnt).

(** Body of the loop over the records of a VARIABLE file; the state is the
    image, the position, [sectorNo] and [sectorBytesLeft]. *)
Definition createBinaryImage_variable (st : JS.array * Z * Z * Z)
    (r : DiskFile.Record) : JS.array * Z * Z * Z :=
  let '(dskImg, n, sectorNo, sectorBytesLeft) := st in
  let data := DiskFile.getData r in
  let len := Z.of_nat (List.length data) in
  let '(dskImg, n, sectorNo, sectorBytesLeft) :=
    if sectorBytesLeft <=? len then
      let '(dskImg, n, _) := closeSector dskImg n sectorBytesLeft in
      let sectorNo := sectorNo + 1 in
      (dskImg, sectorNo * 256, sectorNo, 256)
    else (dskImg, n, sectorNo, sectorBytesLeft) in
  let '(dskImg, n) := writeByte dskImg n (Some len) in
  let sectorBytesLeft := sectorBytesLeft - 1 in
  let '(dskImg, n) := writeBytes dskImg n data in
  (dskImg, n, sectorNo, sectorBytesLeft - len).

(** The data sectors of one file, written from [startSectorNo] on: the
    image and the number of the last sector used. *)
Definition createBinaryImage_data (file : DiskFile.t) (dskImg : JS.array)
    (startSectorNo : Z) : JS.array * Z :=
  let sectorNo := startSectorNo in
  let n := sectorNo * 256 in
  if DiskFile.fileType file =? Disk.FileType_DATA then
    let records := DiskFile.records file in
    if DiskFile.recordType file =? Disk.RecordType_FIXED then
      let recordPerSector := JS.floorDiv (Some 256) (DiskFile.recordLength file) in
      let '(dskImg, n, sectorNo, recCnt) :=
        fold_left (createBinaryImage_fixed recordPerSector) records
                  (dskImg, n, sectorNo, 0) in
      (dskImg, if recCnt =? 0 then sectorNo - 1 else sectorNo)
    else
      let '(dskImg, n, sectorNo, sectorBytesLeft) :=
        fold_left createBinaryImage_variable records (dskImg, n, sectorNo, 256) in
      let '(dskImg, n, sectorBytesLeft) := closeSector dskImg n sectorBytesLeft in
      (dskImg, if sectorBytesLeft =? 256 then sectorNo - 1 else sectorNo)
  else
    let program := DiskFile.program file in
    let '(dskImg, n) := writeBytes dskImg n (map Some program) in
    let length := Z.of_nat (List.length program) in
    (dskImg, sectorNo + (length / 256 - (if Z.rem length 256 =? 0 then 1 else 0))).

(** Body of the loop over the files; the state is the image,
    [nextDataSectorNo] and the index [f]. *)
Definition createBinaryImage_file (sectorsPerAU sectorsPerAUForDataChainPointers
    firstFdrSector : Z) (st : JS.array * Z * Z) (file : DiskFile.t)
  : JS.array * Z * Z :=
  let '(dskImg, nextDataSectorNo, f) := st in
  let fdrSectorNo := firstFdrSector + f * sectorsPerAU in
  let '(dskImg, _) := writeWord dskImg (256 + 2 * f) (Some fdrSectorNo) in
  let fileDescriptorAddr := fdrSectorNo * 256 in
  let n := fileDescriptorAddr in
  let isData := DiskFile.fileType file =? Disk.FileType_DATA in
  let '(dskImg, n) := writeString dskImg n (DiskFile.name file) 10 in
  let '(dskImg, n) := writeWord dskImg n (Some 0) in
  let '(dskImg, n) := writeByte dskImg n (Some (statusFlags file)) in
  let '(dskImg, n) :=
    writeByte dskImg n
      (if isData then JS.floorDiv (Some 256) (recordSlot file) else Some 0) in
  let '(dskImg, n) := writeWord dskImg n (Some (DiskFile.getSectorCount file)) in
  let '(dskImg, n) := writeByte dskImg n (Some (DiskFile.getEOFOffset file)) in
  let '(dskImg, n) :=
    writeByte dskImg n (if isData then DiskFile.recordLength file else Some 0) in
  let '(dskImg, n) := writeLEWord dskImg n (Some (level3Records file)) in
  let startSectorNo := nextDataSectorNo in
  let '(dskImg, sectorNo) := createBinaryImage_data file dskImg startSectorNo in
  let nextDataSectorNo := ceilN (sectorNo + 1) sectorsPerAU in
  let au := sectorsToAllocationUnits startSectorNo sectorsPerAUForDataChainPointers in
  let sectorCount := sectorNo - startSectorNo in
  let n := fileDescriptorAddr + 0x1C in
  let '(dskImg, n) := writeByte dskImg n (Some (JS.band (Some au) (Some 0x00FF))) in
  let '(dskImg, n) :=
    writeByte dskImg n
      (Some (JS.bor (Some (JS.shl (Some (JS.band (Some sectorCount) (Some 0x000F))) 4))
                    (Some (JS.shr (Some (JS.band (Some au) (Some 0x0F00))) 8)))) in
  let '(dskImg, n) :=
    writeByte dskImg n
      (Some (JS.shr (Some (JS.band (Some sectorCount) (Some 0x0FF0))) 4)) in
  let startAU := sectorsToAllocationUnits startSectorNo sectorsPerAU in
  let endAU := sectorsToAllocationUnits sectorNo sectorsPerAU in
  let dskImg := fold_left markAllocated (seqZ startAU (endAU + 1 - startAU)) dskImg in
  let fdrAU := sectorsToAllocationUnits fdrSectorNo sectorsPerAU in
  let dskImg := markAllocated dskImg fdrAU in
  (dskImg, nextDataSectorNo, f + 1).

Definition createBinaryImage (d : t) : list Z :=
  let totalSectors := totalSectors (geometry d) in
  let sectorsPerAU := getSectorsPerAllocationUnit d in
  let sectorsPerAUForDataChainPointers :=
    getSectorsPerAllocationUnitForDataChainPointers d in
  let dskImg := JS.Uint8Array (JS.newUint8Array (JS.mul totalSectors (Some 256))) in
  let n := 0 in
  let '(dskImg, n) := writeString dskImg n (name d) 10 in
  let '(dskImg, n) := writeWord dskImg n totalSectors in
  let '(dskImg, n) := writeByte dskImg n (sectorsPerTrack (geometry d)) in
  let '(dskImg, n) := writeString dskImg n "DSK" 3 in
  let '(dskImg, n) := writeByte dskImg n (Some 0x20) in
  let '(dskImg, n) := writeByte dskImg n (tracksPerSide (geometry d)) in
  let '(dskImg, n) := writeByte dskImg n (numberOfSides (geometry d)) in
  let '(dskImg, n) := writeByte dskImg n (density (geometry d)) in
  let '(dskImg, _) :=
    writeByte dskImg 0x38 (Some (if sectorsPerAU =? 1 then 0x03 else 0x01)) in
  let dskImg :=
    fold_left (fun dskImg i => JS.set dskImg i (Some 0xFF))
              (seqZ 0xEC (0xFF + 1 - 0xEC)) dskImg in
  let files := getFilesArray d in
  let fileCount := Z.min (Z.of_nat (List.length files)) 127 in
  let firstFdrSector := Z.max 2 sectorsPerAU in
  let nextDataSectorNo :=
    ceilN (firstFdrSector + fileCount * sectorsPerAU) sectorsPerAU in
  let '(dskImg, _, _) :=
    fold_left (createBinaryImage_file sectorsPerAU
                 sectorsPerAUForDataChainPointers firstFdrSector)
              (take (Z.to_nat fileCount) files) (dskImg, nextDataSectorNo, 0) in
  JS.toUint8Array dskImg.

(** [getBinaryImage()]: the image and the state that now caches it. *)
Definition getBinaryImage (d : t) : list Z * t :=
  match binaryImage d with
  | Some image => (image, d)
  | None =>
      let image := createBinaryImage d in
      (image, mk (name d) (files d) (geometry d) (Some image)
                 (eventHandler d) (notified d))
  end.

Definition readSector (sectorNo : Z) (d : t) : list Z * t :=
  let sector := JS.Uint8Array (JS.newUint8Array (Some 256)) in
  let '(tiDiskImage, d) := getBinaryImage d in
  let sectorOffset := 256 * sectorNo in
  let sector :=
    fold_left (fun sector i =>
                 JS.set sector i (JS.u8get tiDiskImage (Some (sectorOffset + i))))
              (seqZ 0 256) sector in
  (JS.toUint8Array sector, d).

End Collation.

(** *** The default collation on file names

    The comparison that the collation of the Unicode root locale (the one
    a host uses when the locale has no tailoring, as for English) makes on
    strings over the characters of file names: letters in alphabetical
    order whatever their case, after the digits, after ['_'] and ['-'];
    case only separates strings that are otherwise equal, lower case
    first.  Other characters are ranked by code unit between ['-'] and
    ['0'], which is not the order the root locale gives them. *)

Definition primaryWeight (c : ascii) : Z :=
  let n := JS.charCode c in
  if (48 <=? n) && (n <=? 57) then 1000 + (n - 48)
  else if (65 <=? n) && (n <=? 90) then 2000 + (n - 65)
  else if (97 <=? n) && (n <=? 122) then 2000 + (n - 97)
  else if n =? 95 then 1
  else if n =? 45 then 2
  else 3 + n.

Definition tertiaryWeight (c : ascii) : Z :=
  let n := JS.charCode c in
  if (65 <=? n) && (n <=? 90) then 2 else 1.

(** The sort key: the primary weights, a separator below them all, the
    case weights. *)
Definition sortKey (s : string) : list Z :=
  map primaryWeight (JS.chars s) ++ 0 :: map tertiaryWeight (JS.chars s).

Fixpoint lexCompare (a b : list Z) : comparison :=
  match a, b with
  | [], [] => Eq
  | [], _ :: _ => Lt
  | _ :: _, [] => Gt
  | x :: a', y :: b' =>
      match x ?= y with
      | Eq => lexCompare a' b'
      | c => c
      end
  end.

Definition rootCompare (a b : string) : Z :=
  match lexCompare (sortKey a) (sortKey b) with
  | Lt => -1
  | Eq => 0
  | Gt => 1
  end.

(** Comparison of the code units, the order of [<] on strings. *)
Definition codeUnitCompare (a b : string) : comparison :=
  lexCompare (map JS.charCode (JS.chars a)) (map JS.charCode (JS.chars b)).

(** *** Snapshots: [getState] and [restoreState]

    Modelled from the spec: the state of an entry is its own business
    (section 6); the model takes the entry itself for it, and
    [DiskFile.restoreState] for the call that puts it back. *)
Definition DiskFile_restoreState (state : DiskFile.t) (file : DiskFile.t) : DiskFile.t :=
  DiskFile.mk (DiskFile.name file) (DiskFile.fileType state)
              (DiskFile.recordType state) (DiskFile.recordLength state)
              (DiskFile.dataType state) (DiskFile.records state)
              (DiskFile.program state).

Definition getState (d : t) : string * dict := (name d, files d).

Definition restoreState (state : string * dict) (d : t) : t :=
  let files :=
    fold_left (fun files '(fileName, fileState) =>
                 let file := DiskFile.new fileName Disk.FileType_DATA
                               Disk.RecordType_FIXED (Some 80)
                               Disk.DataType_INTERNAL in
                 setProperty fileName (DiskFile_restoreState fileState file) files)
              (snd state) [] in
  mk (fst state) files (geometry d) (binaryImage d) (eventHandler d) (notified d).

End DiskImage.

Import DiskImage.

(** ** Notions the statements use *)

(** An image with another total number of sectors. *)
Definition withTotalSectors (totalSectors : JS.number) (d : t) : t :=
  mk (name d) (files d)
     (mkGeometry totalSectors (sectorsPerTrack (geometry d))
        (tracksPerSide (geometry d)) (numberOfSides (geometry d))
        (density (geometry d)))
     (binaryImage d) (eventHandler d) (notified d).

(** The order a comparator puts on entries: [a] may stand before [b]. *)
Definition ordered (localeCompare : string -> string -> Z) (a b : DiskFile.t) : Prop :=
  localeCompare (DiskFile.name a) (DiskFile.name b) <= 0.

(** The order of the code units of the names. *)
Definition codeUnitOrdered (a b : DiskFile.t) : Prop :=
  codeUnitCompare (DiskFile.name a) (DiskFile.name b) <> Gt.

(** [b & 0x00FF], what [writeByte] stores. *)
Definition byteOf (b : JS.number) : JS.number := Some (JS.band b (Some 0x00FF)).

Definition alen (l : list JS.number) : Z := Z.of_nat (List.length l).

(** The end of a sector with [sectorBytesLeft] bytes free: 0xFF, then zeros. *)
Definition terminator (sectorBytesLeft : Z) : list JS.number :=
  Some 0xFF :: replicate (Z.to_nat (sectorBytesLeft - 1)) (Some 0).




(** ** Images and entries of the examples *)

Definition fileLowerA : DiskFile.t :=
  DiskFile.new "a" Disk.FileType_DATA Disk.RecordType_FIXED (Some 80)
               Disk.DataType_DISPLAY.

Definition fileUpperB : DiskFile.t :=
  DiskFile.new "B" Disk.FileType_DATA Disk.RecordType_FIXED (Some 80)
               Disk.DataType_DISPLAY.

Definition catalogBa : t :=
  putFile fileLowerA (putFile fileUpperB (new "DSK1" true)).









(** The cache invariant: a cached image is the image that
    [createBinaryImage] would produce now. *)
Definition cacheFresh (localeCompare : string -> string -> Z) (d : t) : Prop :=
  forall image, binaryImage d = Some image -> image = createBinaryImage localeCompare d.

(** The entry of one slot of the descriptor index, when the slot is used,
    and the entries of all 128 in the order of the slots. *)
Definition slotEntry (fileBuffer : list Z) (sectorsPerAU : Z)
    (fileDescriptorIndex : Z) : option DiskFile.t :=
  let fileDescriptorSectorNo :=
    readWord fileBuffer (Some (0x100 + fileDescriptorIndex * 2)) in
  if JS.neqb fileDescriptorSectorNo 0
  then Some (readDescriptor fileBuffer sectorsPerAU fileDescriptorSectorNo)
  else None.

Definition slotEntries (fileBuffer : list Z) (sectorsPerAU : Z) : list DiskFile.t :=
  omap (slotEntry fileBuffer sectorsPerAU) (seqZ 0 128).

Definition fileAdded (file : DiskFile.t) : DiskImageEvent :=
  mkEvent "fileAdded" (DiskFile.name file) None.

(** The name the specification gives an entry imported from a plain file:
    the characters of the file name that a TI name may have, at most ten. *)
Definition specifiedName (fileName : string) : string :=
  JS.ofChars (take 10 (List.filter JS.isNameChar (JS.chars fileName))).

Definition rec80 (b : Z) : DiskFile.Record :=
  DiskFile.FixedRecord (replicate 80 (Some b)) (Some 80).

(** A FIXED file of four records of 80 bytes, on a fresh disk. *)
Definition testFile : DiskFile.t :=
  DiskFile.mk "TEST" Disk.FileType_DATA Disk.RecordType_FIXED (Some 80)
    Disk.DataType_DISPLAY [rec80 1; rec80 2; rec80 3; rec80 4] [].

Definition diskTest : t := putFile testFile (new "DSK1" true).

(** Three sectors of zeros: a volume without a name and without files. *)
Definition bufferEmpty : list Z := replicate 768 0.

(** Three sectors: slot 0 of the index points to sector 2, which holds the
    descriptor of an empty file HI. *)
Definition bufferOneFile : list Z :=
  replicate 257 0 ++ 2 :: replicate 254 0 ++ [72; 73] ++ replicate 254 0.

(** 129 zero bytes: neither a TIFILES nor a V9T9 header. *)
Definition bufferPlain : list Z := replicate 129 0.


(** ** Notions of the further properties *)

(** The keys of the catalog, in enumeration order. *)
Definition keys (o : dict) : list string := map fst o.


(** Two entries with the same name and type metadata. *)
Definition sameMeta (f g : DiskFile.t) : Prop :=
  DiskFile.name f = DiskFile.name g /\
  DiskFile.fileType f = DiskFile.fileType g /\
  DiskFile.recordType f = DiskFile.recordType g /\
  DiskFile.recordLength f = DiskFile.recordLength g /\
  DiskFile.dataType f = DiskFile.dataType g.

(** The entry that the header of an import describes, without content. *)
Definition headerEntry (h : header) : DiskFile.t :=
  if fileType h =? Disk.FileType_DATA
  then DiskFile.new (tiFileName h) (fileType h) (recordType h) (recordLength h)
                    (datatype h)
  else DiskFile.new (tiFileName h) (fileType h) 0 (Some 0) 0.

(** A TIFILES header that declares a PROGRAM of no sector with an end of
    file offset of 1, and one byte after the header. *)
Definition bufferNegative : list Z :=
  [7; 84; 73; 70; 73; 76; 69; 83; 0; 0; 1; 0; 1; 0] ++ replicate 115 0.

(** A typed array of [n] bytes. *)
Definition isUint8Array (n : nat) (a : JS.array) : Prop :=
  exists l, a = JS.Uint8Array l /\ List.length l = n
            /\ Forall (fun b => 0 <= b < 256) l.

(** Two sectors: a volume named BLANK of two sectors, and an index of zeros. *)
Definition bufferBlank : list Z :=
  [66; 76; 65; 78; 75; 32; 32; 32; 32; 32; 0; 2; 9; 68; 83; 75; 32; 40; 1; 1]
  ++ replicate 492 0.

(** The elements [writeString] stores: the code units of the first
    [padLen] characters, then spaces up to [padLen]. *)
Definition stringBytes (str : string) (padLen : Z) : list JS.number :=
  map (fun c => Some (JS.charCode c))
      (take (Z.to_nat (Z.min (JS.strlen str) padLen)) (JS.chars str))
  ++ map (fun _ => Some 0x20) (seqZ 0 (padLen - JS.strlen str)).

(** The two elements [writeWord] stores. *)
Definition wordBytes (w : JS.number) : list JS.number :=
  [Some (JS.shr (Some (JS.band w (Some 0xFF00))) 8); Some (JS.band w (Some 0x00FF))].

(** The 128 elements of the header of [createTIFile]. *)
Definition tiHeader (fileName : string) (file : DiskFile.t) : list JS.number :=
  [byteOf (Some 0x07)]
  ++ stringBytes "TIFILES" 7
  ++ wordBytes (Some (DiskFile.getSectorCount file))
  ++ [byteOf (Some (statusFlags file));
      byteOf (if (DiskFile.fileType file =? Disk.FileType_DATA)
                 && JS.gtb (DiskFile.recordLength file) (Some 0)
              then JS.floorDiv (Some 256) (recordSlot file) else Some 0);
      byteOf (Some (DiskFile.getEOFOffset file));
      byteOf (DiskFile.recordLength file);
      Some (JS.band (Some (level3Records file)) (Some 0x00FF));
      Some (JS.shr (Some (JS.band (Some (level3Records file)) (Some 0xFF00))) 8)]
  ++ stringBytes fileName 10
  ++ replicate 102 (Some 0).

(** A PROGRAM entry as the importers build it. *)
Definition programFile (name : string) (program : list Z) : DiskFile.t :=
  DiskFile.setProgram program
    (DiskFile.new name Disk.FileType_PROGRAM 0 (Some 0) 0).

(** A name of at most ten characters, all of them letters, digits, ['_']
    or ['-'], and not empty. *)
Definition validName (name : string) : Prop :=
  0 < JS.strlen name <= 10 /\ Forall (fun c => JS.isNameChar c = true) (JS.chars name).

(** The sixteen bytes before the name, the name field and what follows. *)
Definition tifilesBuffer (b8 b9 b10 b11 b12 b13 b14 b15 : Z) (name : string)
    (rest : list Z) : list Z :=
  [7; 84; 73; 70; 73; 76; 69; 83; b8; b9; b10; b11; b12; b13; b14; b15]
  ++ (map JS.charCode (JS.chars name)
      ++ replicate (10 - String.length name) 32)
  ++ rest.

(** A typed array of [N] bytes whose bytes after [P] are still zero. *)
Definition zeroTail (P : list Z) (N : nat) : JS.array :=
  JS.Uint8Array (P ++ replicate (N - List.length P) 0).

(** The length of a list of bytes, as a position. *)
Definition ulen (P : list Z) : Z := Z.of_nat (List.length P).

(** The first twenty bytes of an image: the volume name and the geometry. *)
Definition volumeHeader (d : t) : list Z :=
  map JS.ToUint8
      (stringBytes (name d) 10
       ++ wordBytes (totalSectors (geometry d))
       ++ [byteOf (sectorsPerTrack (geometry d))]
       ++ stringBytes "DSK" 3
       ++ [byteOf (Some 0x20); byteOf (tracksPerSide (geometry d));
           byteOf (numberOfSides (geometry d)); byteOf (density (geometry d))]).

(** Sector 0 of the image of a volume without files. *)
Definition blankSector0 (d : t) : list Z :=
  volumeHeader d ++ replicate 36 0
  ++ [if getSectorsPerAllocationUnit d =? 1 then 0x03 else 0x01]
  ++ replicate 179 0 ++ replicate 20 0xFF.

(** ** Allocation units *)

(** C5.  The storage allocation unit is 1, 2, 4 or 8 sectors as the total
    number of sectors is below 1600, 3200, 6400 or not; the allocation unit
    of the data chain pointers is 1 below 4096 sectors and the storage
    allocation unit from there on.  A total that is not a number falls in
    the last case of both. *)
Theorem allocation_unit_steps (d : t) :
  match totalSectors (geometry d) with
  | Some total =>
      (total < 1600 -> getSectorsPerAllocationUnit d = 1) /\
      (1600 <= total < 3200 -> getSectorsPerAllocationUnit d = 2) /\
      (3200 <= total < 6400 -> getSectorsPerAllocationUnit d = 4) /\
      (6400 <= total -> getSectorsPerAllocationUnit d = 8) /\
      (total < 4096 ->
       getSectorsPerAllocationUnitForDataChainPointers d = 1) /\
      (4096 <= total ->
       getSectorsPerAllocationUnitForDataChainPointers d
       = getSectorsPerAllocationUnit d)
  | None =>
      getSectorsPerAllocationUnit d = 8 /\
      getSectorsPerAllocationUnitForDataChainPointers d = 8
  end.
Proof.
  unfold getSectorsPerAllocationUnitForDataChainPointers,
    getSectorsPerAllocationUnit.
  destruct (totalSectors (geometry d)) as [total|]; simpl; [|split; reflexivity].
  repeat split; intros;
    repeat match goal with
      | |- context [?a <? ?b] => destruct (Z.ltb_spec a b); try lia
      end; reflexivity.
Qed.

Lemma allocation_unit_steps_witness :
  getSectorsPerAllocationUnit (new "DSK1" true) = 1 /\
  getSectorsPerAllocationUnit (withTotalSectors (Some 2880) (new "DSK1" true)) = 2 /\
  getSectorsPerAllocationUnitForDataChainPointers
    (withTotalSectors (Some 2880) (new "DSK1" true)) = 1 /\
  getSectorsPerAllocationUnitForDataChainPointers
    (withTotalSectors (Some 5000) (new "DSK1" true)) = 4.
Proof.
  pose proof (allocation_unit_steps (new "DSK1" true)) as H1.
  pose proof (allocation_unit_steps (withTotalSectors (Some 2880) (new "DSK1" true))) as H2.
  pose proof (allocation_unit_steps (withTotalSectors (Some 5000) (new "DSK1" true))) as H3.
  simpl in H1, H2, H3.
  destruct H1 as (H1 & _).
  destruct H2 as (_ & H2 & _ & _ & H2' & _).
  destruct H3 as (_ & _ & H3 & _ & _ & H3').
  split; [apply H1; lia|].
  split; [apply H2; lia|].
  split; [apply H2'; lia|].
  rewrite H3' by lia. apply H3; lia.
Defined.

(** ** The sorted catalog *)

Section SortFacts.

Variable localeCompare : string -> string -> Z.

Lemma sortInsert_perm (a : DiskFile.t) (l : list DiskFile.t) :
  Permutation (sortInsert localeCompare a l) (a :: l).
Proof.
  induction l as [|b l IH]; simpl; [reflexivity|].
  destruct (_ <=? 0); [reflexivity|].
  rewrite IH. apply perm_swap.
Qed.

Lemma sort_perm (l : list DiskFile.t) : Permutation (sort localeCompare l) l.
Proof.
  induction l as [|a l IH]; simpl; [reflexivity|].
  rewrite sortInsert_perm. now constructor.
Qed.

Hypothesis compare_total :
  forall a b, localeCompare a b <= 0 \/ localeCompare b a <= 0.
Hypothesis compare_trans :
  forall a b c,
    localeCompare a b <= 0 -> localeCompare b c <= 0 -> localeCompare a c <= 0.

Lemma sortInsert_sorted (a : DiskFile.t) (l : list DiskFile.t) :
  StronglySorted (ordered localeCompare) l -> StronglySorted (ordered localeCompare) (sortInsert localeCompare a l).
Proof.
  induction 1 as [|b l Hl IH Hb]; simpl.
  - repeat constructor.
  - destruct (Z.leb_spec (localeCompare (DiskFile.name a) (DiskFile.name b)) 0)
      as [Hab|Hab].
    + constructor; [now constructor|].
      constructor; [exact Hab|].
      eapply Forall_impl; [exact Hb|].
      intros c Hbc. unfold ordered in *. eauto.
    + constructor; [exact IH|].
      rewrite sortInsert_perm. constructor; [|exact Hb].
      unfold ordered.
      destruct (compare_total (DiskFile.name a) (DiskFile.name b)); [lia|assumption].
Qed.

Lemma sort_sorted (l : list DiskFile.t) : StronglySorted (ordered localeCompare) (sort localeCompare l).
Proof.
  induction l as [|a l IH]; simpl; [constructor|].
  now apply sortInsert_sorted.
Qed.

End SortFacts.

(** C3, as the code has it.  Whatever the collation of the host, as long as
    it is a total preorder on names, [getFilesArray] returns the entries of
    the catalog, each once, every entry before all those that compare
    greater under [localeCompare]; and the array depends on the catalog
    alone. *)
Theorem getFilesArray_sorted (localeCompare : string -> string -> Z)
    (compare_total :
       forall a b, localeCompare a b <= 0 \/ localeCompare b a <= 0)
    (compare_trans :
       forall a b c, localeCompare a b <= 0 -> localeCompare b c <= 0 ->
                     localeCompare a c <= 0)
    (d : t) :
  Permutation (getFilesArray localeCompare d) (map snd (files d)) /\
  StronglySorted (ordered localeCompare) (getFilesArray localeCompare d) /\
  (forall d', files d' = files d ->
              getFilesArray localeCompare d' = getFilesArray localeCompare d).
Proof.
  unfold getFilesArray. split; [apply sort_perm|].
  split; [now apply sort_sorted|].
  intros d' ->. reflexivity.
Qed.

(** ** The default collation is a total preorder *)

Lemma lexCompare_antisym (a b : list Z) :
  lexCompare b a = CompOpp (lexCompare a b).
Proof.
  revert b. induction a as [|x a IH]; intros [|y b]; simpl; try reflexivity.
  rewrite (Z.compare_antisym x y).
  destruct (x ?= y); simpl; [apply IH|reflexivity|reflexivity].
Qed.

Lemma lexCompare_trans (a b c : list Z) :
  lexCompare a b <> Gt -> lexCompare b c <> Gt -> lexCompare a c <> Gt.
Proof.
  revert b c. induction a as [|x a IH]; intros [|y b] [|z c]; simpl;
    try congruence.
  destruct (Z.compare_spec x y) as [Hxy|Hxy|Hxy];
    destruct (Z.compare_spec y z) as [Hyz|Hyz|Hyz];
    destruct (Z.compare_spec x z) as [Hxz|Hxz|Hxz];
    try congruence; try lia.
  apply IH.
Qed.

Lemma rootCompare_le (a b : string) :
  rootCompare a b <= 0 <-> lexCompare (sortKey a) (sortKey b) <> Gt.
Proof.
  unfold rootCompare. destruct (lexCompare (sortKey a) (sortKey b));
    split; intros; try congruence; lia.
Qed.

Lemma rootCompare_total (a b : string) :
  rootCompare a b <= 0 \/ rootCompare b a <= 0.
Proof.
  rewrite !rootCompare_le, (lexCompare_antisym (sortKey a) (sortKey b)).
  destruct (lexCompare (sortKey a) (sortKey b)); simpl;
    [left|left|right]; congruence.
Qed.

Lemma rootCompare_trans (a b c : string) :
  rootCompare a b <= 0 -> rootCompare b c <= 0 -> rootCompare a c <= 0.
Proof. rewrite !rootCompare_le. apply lexCompare_trans. Qed.

Lemma getFilesArray_sorted_witness :
  Permutation (getFilesArray rootCompare catalogBa) (map snd (files catalogBa)) /\
  StronglySorted (ordered rootCompare) (getFilesArray rootCompare catalogBa).
Proof.
  destruct (getFilesArray_sorted rootCompare rootCompare_total rootCompare_trans
              catalogBa) as (Hperm & Hsorted & _).
  split; [exact Hperm|exact Hsorted].
Defined.

(** C3, as the claim has it, fails under the default collation: of the
    entries ["B"] and ["a"], [getFilesArray] puts ["a"] first, which the order
    of the code units puts last. *)
Lemma getFilesArray_not_code_unit_order :
  map DiskFile.name (getFilesArray rootCompare catalogBa) = ["a"; "B"]%string /\
  ~ StronglySorted codeUnitOrdered (getFilesArray rootCompare catalogBa).
Proof.
  split; [reflexivity|].
  intros H. change (getFilesArray rootCompare catalogBa) with [fileLowerA; fileUpperB] in H.
  inversion H as [|? ? _ Hall]; subst.
  inversion Hall as [|? ? Hab _]; subst.
  apply Hab. reflexivity.
Qed.

(** ** Reading sectors *)

Lemma seqZ_one (m : Z) : seqZ m 1 = [m].
Proof. rewrite seqZ_cons by lia. now rewrite seqZ_nil by lia. Qed.

Lemma seqZ_snoc (m : Z) (k : nat) :
  seqZ m (Z.of_nat (S k)) = seqZ m (Z.of_nat k) ++ [m + Z.of_nat k].
Proof.
  rewrite Nat2Z.inj_succ, <- Z.add_1_r, seqZ_app by lia.
  now rewrite seqZ_one.
Qed.

Lemma fold_set_prefix (g : Z -> JS.number) (l : list Z) (k : nat) :
  (k <= List.length l)%nat ->
  fold_left (fun s i => JS.set s i (g i)) (seqZ 0 (Z.of_nat k)) (JS.Uint8Array l)
  = JS.Uint8Array (map (fun i => JS.ToUint8 (g i)) (seqZ 0 (Z.of_nat k)) ++ drop k l).
Proof.
  induction k as [|k IH]; intros Hk.
  - simpl. now rewrite drop_0.
  - rewrite seqZ_snoc, fold_left_app, IH, Z.add_0_l by lia.
    cbn [fold_left]. unfold JS.set.
    destruct (Z.ltb_spec (Z.of_nat k) 0) as [|_]; [lia|].
    rewrite Nat2Z.id, map_app. cbn [map].
    destruct (lookup_lt_is_Some_2 l k) as [x Hx]; [lia|].
    rewrite (drop_S l x k Hx).
    rewrite insert_app_r_alt by (rewrite length_map, length_seqZ; lia).
    rewrite length_map, length_seqZ, Nat2Z.id, Nat.sub_diag. simpl.
    now rewrite <- app_assoc.
Qed.

Lemma fold_set_Uint8Array (g : Z -> JS.number) (l : list Z) (n : Z) :
  n = Z.of_nat (List.length l) ->
  fold_left (fun s i => JS.set s i (g i)) (seqZ 0 n) (JS.Uint8Array l)
  = JS.Uint8Array (map (fun i => JS.ToUint8 (g i)) (seqZ 0 n)).
Proof.
  intros ->. rewrite fold_set_prefix by lia.
  now rewrite drop_ge, app_nil_r by lia.
Qed.

(** C10.  [readSector(n)] gives 256 bytes for any sector number: byte [i] is
    byte [256 n + i] of the binary image where the image has one, and 0
    where it has none. *)
Theorem readSector_256 (localeCompare : string -> string -> Z) (sectorNo : Z) (d : t) :
  let image := fst (getBinaryImage localeCompare d) in
  let sector := fst (readSector localeCompare sectorNo d) in
  List.length sector = 256%nat /\
  sector = map (fun i => match JS.u8get image (Some (256 * sectorNo + i)) with
                         | Some b => b mod 256
                         | None => 0
                         end) (seqZ 0 256) /\
  (forall i, 0 <= i < 256 ->
             ~ (0 <= 256 * sectorNo + i < Z.of_nat (List.length image)) ->
             sector !! Z.to_nat i = Some 0).
Proof.
  intros image sector.
  assert (Hs : sector = map (fun i => match JS.u8get image (Some (256 * sectorNo + i)) with
                         | Some b => b mod 256
                         | None => 0
                         end) (seqZ 0 256)).
  { subst sector image. unfold readSector.
    destruct (getBinaryImage localeCompare d) as [tiDiskImage d']. cbn [fst].
    unfold JS.newUint8Array.
    rewrite (fold_set_Uint8Array
               (fun i => JS.u8get tiDiskImage (Some (256 * sectorNo + i))))
      by (rewrite length_replicate; lia).
    reflexivity. }
  split; [rewrite Hs, length_map, length_seqZ; reflexivity|].
  split; [exact Hs|].
  intros i Hi Hout. rewrite Hs, list_lookup_fmap, lookup_seqZ_lt by lia.
  simpl. rewrite Z2Nat.id, Z.add_0_l by lia.
  unfold JS.u8get.
  destruct (Z.ltb_spec (256 * sectorNo + i) 0); [reflexivity|].
  rewrite lookup_ge_None_2 by lia. reflexivity.
Qed.

(** ** Writers on a plain array that is written at its end *)

Lemma set_Array_end (l : list JS.number) (v : JS.number) :
  JS.set (JS.Array l) (alen l) v = JS.Array (l ++ [v]).
Proof.
  unfold JS.set, alen.
  destruct (Z.ltb_spec (Z.of_nat (List.length l)) 0); [lia|].
  rewrite Z.ltb_irrefl, Nat2Z.id, Nat.sub_diag. reflexivity.
Qed.

Lemma alen_app (l l' : list JS.number) : alen (l ++ l') = alen l + alen l'.
Proof. unfold alen. rewrite length_app. lia. Qed.

Lemma writeByte_Array (l : list JS.number) (b : JS.number) :
  writeByte (JS.Array l) (alen l) b
  = (JS.Array (l ++ [byteOf b]), alen (l ++ [byteOf b])).
Proof.
  unfold writeByte. rewrite set_Array_end, alen_app. reflexivity.
Qed.








(** ** Writers on any array *)

Lemma ToInt32_small (z : Z) : 0 <= z < 2147483648 -> JS.ToInt32 (Some z) = z.
Proof.
  intros H. unfold JS.ToInt32.
  rewrite Z.mod_small by lia. lia.
Qed.

Lemma band_255 (b : JS.number) : JS.band b (Some 0x00FF) = JS.ToInt32 b mod 256.
Proof.
  unfold JS.band. rewrite (ToInt32_small 255) by lia.
  change 255 with (Z.ones 8). now rewrite Z.land_ones by lia.
Qed.




Lemma writeBytes_cons (a : JS.array) (n : Z) (b : JS.number) (bs : list JS.number) :
  writeBytes a n (b :: bs)
  = writeBytes (fst (writeByte a n b)) (snd (writeByte a n b)) bs.
Proof. reflexivity. Qed.

Lemma writeBytes_snd (bs : list JS.number) (a : JS.array) (n : Z) :
  snd (writeBytes a n bs) = n + alen bs.
Proof.
  revert a n. induction bs as [|b bs IH]; intros a n.
  - unfold alen. simpl. lia.
  - rewrite writeBytes_cons, IH. unfold alen. simpl List.length.
    unfold writeByte. simpl snd. lia.
Qed.



Lemma writeBytes_pair (bs : list JS.number) (a : JS.array) (n : Z) :
  writeBytes a n bs = (fst (writeBytes a n bs), n + alen bs).
Proof. rewrite <- (writeBytes_snd bs a n). now destruct (writeBytes a n bs). Qed.

Lemma closeSector_any (a : JS.array) (n sectorBytesLeft : Z) :
  closeSector a n sectorBytesLeft
  = if 0 <? sectorBytesLeft
    then (fst (writeBytes a n (terminator sectorBytesLeft)), n + sectorBytesLeft, 0)
    else (a, n, sectorBytesLeft).
Proof.
  unfold closeSector. destruct (Z.ltb_spec 0 sectorBytesLeft) as [H|H]; [|reflexivity].
  unfold terminator. rewrite writeBytes_cons.
  destruct (writeByte a n (Some 255)) as [a1 n1] eqn:E1. cbn [fst snd].
  rewrite (writeBytes_pair _ a1 n1). f_equal. f_equal.
  unfold writeByte in E1. injection E1 as _ <-.
  unfold alen. rewrite length_replicate. lia.
Qed.



(** ** The loop of [createBinaryImage] over variable records writes the
    stream of [createTIFile] from the start of the data sectors *)






(** ** The header of [createTIFile] fills 128 bytes *)

Lemma length_chars (s : string) : List.length (JS.chars s) = String.length s.
Proof.
  unfold JS.chars. induction s as [|c s IH]; simpl; [reflexivity|].
  now rewrite IH.
Qed.

Lemma fold_append {X : Type} (f : X -> JS.number) (xs : list X) (l : list JS.number) :
  fold_left (fun '(data, n) x => (JS.set data n (f x), n + 1)) xs (JS.Array l, alen l)
  = (JS.Array (l ++ map f xs), alen (l ++ map f xs)).
Proof.
  revert l. induction xs as [|x xs IH]; intros l; cbn [fold_left map].
  - now rewrite app_nil_r.
  - rewrite set_Array_end.
    replace (alen l + 1) with (alen (l ++ [f x])) by (rewrite alen_app; reflexivity).
    rewrite IH, <- app_assoc. reflexivity.
Qed.




Lemma fold_zero_fill (k : nat) (l : list JS.number) :
  fold_left (fun '(data, _) n => (JS.set data n (Some 0), n + 1))
            (seqZ (alen l) (Z.of_nat k)) (JS.Array l, alen l)
  = (JS.Array (l ++ replicate k (Some 0)), alen (l ++ replicate k (Some 0))).
Proof.
  revert l. induction k as [|k IH]; intros l.
  - simpl. now rewrite app_nil_r.
  - rewrite seqZ_cons by lia. cbn [fold_left]. rewrite set_Array_end.
    replace (Z.succ (alen l)) with (alen (l ++ [Some 0]))
      by (rewrite alen_app; unfold alen; simpl; lia).
    replace (alen l + 1) with (alen (l ++ [Some 0]))
      by (rewrite alen_app; unfold alen; simpl; lia).
    replace (Z.pred (Z.of_nat (S k))) with (Z.of_nat k) by lia.
    rewrite IH, <- app_assoc. reflexivity.
Qed.


(** ** Export of VARIABLE files *)













(** ** Notifications and the cache *)

Lemma putFile_notified (file : DiskFile.t) (d : t) :
  notified (putFile file d)
  = notified d ++ (if eventHandler d then [fileAdded file] else []).
Proof.
  unfold putFile, fireEvent, invalidateBinaryImage. cbn [eventHandler].
  destruct (eventHandler d); cbn [notified binaryImage]; [reflexivity|].
  now rewrite app_nil_r.
Qed.

Lemma putFile_eventHandler (file : DiskFile.t) (d : t) :
  eventHandler (putFile file d) = eventHandler d.
Proof.
  unfold putFile, fireEvent, invalidateBinaryImage. cbn [eventHandler].
  now destruct (eventHandler d).
Qed.

Lemma putFile_binaryImage (file : DiskFile.t) (d : t) :
  binaryImage (putFile file d) = None.
Proof.
  unfold putFile, fireEvent, invalidateBinaryImage. cbn [eventHandler].
  now destruct (eventHandler d).
Qed.

Lemma putFile_files (file : DiskFile.t) (d : t) :
  files (putFile file d) = setProperty (DiskFile.name file) file (files d).
Proof.
  unfold putFile, fireEvent, invalidateBinaryImage. cbn [eventHandler].
  now destruct (eventHandler d).
Qed.

Lemma putFile_geometry (file : DiskFile.t) (d : t) :
  geometry (putFile file d) = geometry d.
Proof.
  unfold putFile, fireEvent, invalidateBinaryImage. cbn [eventHandler].
  now destruct (eventHandler d).
Qed.

Lemma fold_slots (fileBuffer : list Z) (sectorsPerAU : Z) (indices : list Z) (d : t) :
  fold_left (fun d i => loadBinaryImage_slot fileBuffer sectorsPerAU i d) indices d
  = fold_left (fun d file => putFile file d)
              (omap (slotEntry fileBuffer sectorsPerAU) indices) d.
Proof.
  revert d. induction indices as [|i indices IH]; intros d; [reflexivity|].
  cbn [fold_left]. rewrite IH.
  assert (Hstep : loadBinaryImage_slot fileBuffer sectorsPerAU i d
                  = match slotEntry fileBuffer sectorsPerAU i with
                    | Some file => putFile file d
                    | None => d
                    end).
  { unfold loadBinaryImage_slot, slotEntry. now destruct (JS.neqb _ 0). }
  rewrite Hstep.
  change (omap (slotEntry fileBuffer sectorsPerAU) (i :: indices))
    with (match slotEntry fileBuffer sectorsPerAU i with
          | Some file => file :: omap (slotEntry fileBuffer sectorsPerAU) indices
          | None => omap (slotEntry fileBuffer sectorsPerAU) indices
          end).
  now destruct (slotEntry fileBuffer sectorsPerAU i).
Qed.

Lemma fold_putFile_notified (entries : list DiskFile.t) (d : t) :
  notified (fold_left (fun d file => putFile file d) entries d)
  = notified d ++ (if eventHandler d then map fileAdded entries else [])
  /\ eventHandler (fold_left (fun d file => putFile file d) entries d)
     = eventHandler d
  /\ files (fold_left (fun d file => putFile file d) entries d)
     = fold_left (fun o file => setProperty (DiskFile.name file) file o)
                 entries (files d).
Proof.
  revert d. induction entries as [|file entries IH]; intros d; cbn [fold_left].
  - split; [|split; reflexivity]. destruct (eventHandler d); now rewrite app_nil_r.
  - destruct (IH (putFile file d)) as (Hn & Hh & Hf).
    rewrite Hn, Hh, Hf, putFile_notified, putFile_eventHandler, putFile_files.
    split; [|split; reflexivity].
    destruct (eventHandler d); cbn [map]; now rewrite <- app_assoc.
Qed.

Lemma notified_mk a b c e f g : notified (mk a b c e f g) = g.
Proof. reflexivity. Qed.
Lemma files_mk a b c e f g : files (mk a b c e f g) = b.
Proof. reflexivity. Qed.
Lemma binaryImage_mk a b c e f g : binaryImage (mk a b c e f g) = e.
Proof. reflexivity. Qed.

Lemma loadBinaryImage_effects (fileBuffer : list Z) (d : t) :
  let entries :=
    slotEntries fileBuffer (getSectorsPerAllocationUnitForDataChainPointers d) in
  notified (loadBinaryImage fileBuffer d)
  = notified d ++ (if eventHandler d then map fileAdded entries else [])
  /\ files (loadBinaryImage fileBuffer d)
     = fold_left (fun o file => setProperty (DiskFile.name file) file o) entries []
  /\ binaryImage (loadBinaryImage fileBuffer d) = Some fileBuffer.
Proof.
  intros entries. subst entries. unfold slotEntries.
  unfold loadBinaryImage. rewrite fold_slots.
  rewrite notified_mk, files_mk, binaryImage_mk.
  match goal with |- context [fold_left (fun d file => putFile file d) ?es ?d0] =>
    destruct (fold_putFile_notified es d0) as (Hn & _ & Hf) end.
  rewrite Hn, Hf.
  rewrite notified_mk, files_mk.
  auto.
Qed.

(** C4, as the code has it.  [loadBinaryImage] puts every decoded entry in
    the catalog through [putFile]: when a handler is installed it is called
    once for each used slot of the descriptor index, in the order of the
    slots, with [fileAdded] and the name of the entry; no other
    notification is fired. *)
Theorem loadBinaryImage_notifies (fileBuffer : list Z) (d : t) :
  let entries :=
    slotEntries fileBuffer (getSectorsPerAllocationUnitForDataChainPointers d) in
  notified (loadBinaryImage fileBuffer d)
  = notified d ++ (if eventHandler d then map fileAdded entries else [])
  /\ files (loadBinaryImage fileBuffer d)
     = fold_left (fun o file => setProperty (DiskFile.name file) file o) entries [].
Proof.
  intros entries. subst entries.
  pose proof (loadBinaryImage_effects fileBuffer d) as H. cbv zeta in H.
  destruct H as (Hn & Hf & _).
  split; [exact Hn|exact Hf].
Qed.

(** C4, as the claim has it, fails: loading an image with one file calls
    the handler once. *)
Lemma loadBinaryImage_fires_fileAdded :
  notified (new "DSK1" true) = [] /\
  notified (loadBinaryImage bufferOneFile (new "DSK1" true))
  = [mkEvent "fileAdded" "HI" None].
Proof. vm_compute. split; reflexivity. Qed.

(** C2, as the claim has it, fails: after [loadBinaryImage] the cache is
    the buffer that was loaded, here three sectors of zeros, while
    [createBinaryImage] of the catalog read from it, which has no sector at
    all, is empty. *)
Lemma loadBinaryImage_cache_not_fresh :
  cacheFresh rootCompare (new "DSK1" true) /\
  ~ cacheFresh rootCompare (loadBinaryImage bufferEmpty (new "DSK1" true)).
Proof.
  split.
  - intros image H. discriminate H.
  - intros H.
    pose proof (loadBinaryImage_effects bufferEmpty (new "DSK1" true)) as (_ & _ & Hb).
    specialize (H bufferEmpty Hb).
    vm_compute in H. discriminate H.
Qed.

Lemma fileAdded_cache (entries : list DiskFile.t) :
  Forall (fun e => diskImage_binaryImage e = None) (map fileAdded entries).
Proof. induction entries; constructor; [reflexivity|assumption]. Qed.

Lemma createBinaryImage_cache (localeCompare : string -> string -> Z) (d : t)
    (image : option (list Z)) :
  createBinaryImage localeCompare
    (mk (name d) (files d) (geometry d) image (eventHandler d) (notified d))
  = createBinaryImage localeCompare d.
Proof. reflexivity. Qed.

(** C2, as the code has it.  [putFile] and [deleteFile] empty the cache
    before they notify, so the handler finds no cached image;
    [getBinaryImage] and [readSector] keep a fresh cache fresh and fill an
    empty one with what [createBinaryImage] gives; [loadBinaryImage] ends
    with the loaded buffer itself in the cache, whatever
    [createBinaryImage] would give, and the notifications it fires find the
    cache empty. *)
Theorem cache_discipline (localeCompare : string -> string -> Z) (d : t)
    (file : DiskFile.t) (fileName : string) (fileBuffer : list Z) (sectorNo : Z) :
  (binaryImage (putFile file d) = None /\
   notified (putFile file d)
   = notified d ++ (if eventHandler d
                    then [mkEvent "fileAdded" (DiskFile.name file) None] else [])) /\
  (binaryImage (deleteFile fileName d) = None /\
   notified (deleteFile fileName d)
   = notified d ++ (if eventHandler d
                    then [mkEvent "fileDeleted" fileName None] else [])) /\
  (cacheFresh localeCompare d ->
   fst (getBinaryImage localeCompare d) = createBinaryImage localeCompare d /\
   binaryImage (snd (getBinaryImage localeCompare d))
   = Some (createBinaryImage localeCompare d) /\
   cacheFresh localeCompare (snd (getBinaryImage localeCompare d)) /\
   cacheFresh localeCompare (snd (readSector localeCompare sectorNo d))) /\
  (binaryImage (loadBinaryImage fileBuffer d) = Some fileBuffer /\
   Forall (fun e => diskImage_binaryImage e = None)
          (drop (List.length (notified d)) (notified (loadBinaryImage fileBuffer d)))).
Proof.
  split; [split; [apply putFile_binaryImage|apply putFile_notified]|].
  split.
  { unfold deleteFile, fireEvent, invalidateBinaryImage. cbn [eventHandler].
    destruct (eventHandler d); cbn [binaryImage notified]; split; try reflexivity.
    now rewrite app_nil_r. }
  split.
  { intros Hfresh.
    assert (Hget : fst (getBinaryImage localeCompare d) = createBinaryImage localeCompare d
                   /\ binaryImage (snd (getBinaryImage localeCompare d))
                      = Some (createBinaryImage localeCompare d)
                   /\ cacheFresh localeCompare (snd (getBinaryImage localeCompare d))).
    { unfold getBinaryImage. destruct (binaryImage d) as [image|] eqn:E.
      - unfold fst, snd.
        split; [exact (Hfresh image E)|].
        split; [rewrite E; f_equal; exact (Hfresh image E)|exact Hfresh].
      - unfold fst, snd. rewrite binaryImage_mk.
        split; [reflexivity|]. split; [reflexivity|].
        intros image H. rewrite binaryImage_mk in H. injection H as <-.
        symmetry. apply createBinaryImage_cache. }
    destruct Hget as (H1 & H2 & H3).
    split; [exact H1|]. split; [exact H2|]. split; [exact H3|].
    unfold readSector. destruct (getBinaryImage localeCompare d) as [image d'].
    unfold snd in *. exact H3. }
  pose proof (loadBinaryImage_effects fileBuffer d) as H. cbv zeta in H.
  destruct H as (Hn & _ & Hb).
  split; [exact Hb|].
  rewrite Hn, drop_app_length.
  destruct (eventHandler d); [apply fileAdded_cache|constructor].
Qed.

Lemma cache_discipline_witness :
  fst (getBinaryImage rootCompare (loadBinaryImage bufferEmpty (new "DSK1" true)))
  = bufferEmpty /\
  cacheFresh rootCompare (snd (getBinaryImage rootCompare (new "" true))).
Proof.
  split; [vm_compute; reflexivity|].
  destruct (cache_discipline rootCompare (new "" true) testFile "TEST" bufferEmpty 0)
    as (_ & _ & H & _).
  apply H. intros image Himage. discriminate Himage.
Defined.

(** ** Import of single files *)



(** C9: the code at a file name of twelve characters.  The buffer is
    neither a TIFILES nor a V9T9 file, so the plain path is taken; the entry
    it creates has the empty name, where the specification gives the first
    ten characters of the file name. *)
Theorem plain_import_long_name :
  isTIFILES bufferPlain = false /\
  isV9T9 "LONGFILENAME" bufferPlain = false /\
  match loadTIFile "LONGFILENAME" (Some bufferPlain) false (new "DSK1" true) with
  | Return (Some file, _) =>
      DiskFile.name file = ""%string /\
      specifiedName "LONGFILENAME" = "LONGFILENA"%string
  | _ => False
  end.
Proof. vm_compute. repeat split; reflexivity. Qed.

(** ** Round trip through a disk image *)

(** C1: the code at a FIXED file of four records of 80 bytes.  The image
    of the disk that holds it decodes to a catalog with the same name, but
    the file has six records: the four, and two of zeros that fill the
    second sector. *)
Theorem fixed_file_decodes_with_padding_records :
  let decoded :=
    loadBinaryImage (createBinaryImage rootCompare diskTest) (new "DSK2" true) in
  map DiskFile.name (getFilesArray rootCompare diskTest) = ["TEST"%string] /\
  map DiskFile.name (getFilesArray rootCompare decoded) = ["TEST"%string] /\
  map DiskFile.records (getFilesArray rootCompare diskTest)
  = [[rec80 1; rec80 2; rec80 3; rec80 4]] /\
  map DiskFile.records (getFilesArray rootCompare decoded)
  = [[rec80 1; rec80 2; rec80 3; rec80 4; rec80 0; rec80 0]].
Proof. vm_compute. repeat split; reflexivity. Qed.

(** ** The catalog as a dictionary *)

Lemma hasKey_false (k : string) (o : dict) :
  hasKey k o = false -> ~ In k (keys o).
Proof.
  induction o as [|[k' v'] o IH]; simpl; [tauto|].
  intros H. apply orb_false_iff in H as [Hk Ho].
  apply String.eqb_neq in Hk. intros [->|Hin]; [congruence|now apply IH].
Qed.

Lemma hasKey_true (k : string) (o : dict) :
  hasKey k o = true -> In k (keys o).
Proof.
  induction o as [|[k' v'] o IH]; simpl; [discriminate|].
  intros H. apply orb_true_iff in H as [Hk|Ho].
  - apply String.eqb_eq in Hk. now left.
  - right. now apply IH.
Qed.

Lemma getProperty_not_in (k : string) (o : dict) :
  ~ In k (keys o) -> getProperty k o = None.
Proof.
  unfold getProperty. induction o as [|[k' v'] o IH]; simpl; [reflexivity|].
  intros H. destruct (String.eqb_spec k' k) as [->|Hne]; [tauto|].
  apply IH. tauto.
Qed.

Lemma getProperty_cons (k k' : string) (v' : DiskFile.t) (o : dict) :
  getProperty k ((k', v') :: o)
  = if String.eqb k' k then Some v' else getProperty k o.
Proof. unfold getProperty. simpl. now destruct (String.eqb k' k). Qed.

Lemma getProperty_app (k : string) (o o' : dict) :
  getProperty k (o ++ o')
  = match getProperty k o with Some v => Some v | None => getProperty k o' end.
Proof.
  induction o as [|[k' v'] o IH]; [reflexivity|].
  cbn [app]. rewrite !getProperty_cons. now destruct (String.eqb k' k).
Qed.

Lemma getProperty_replace (k k0 : string) (v : DiskFile.t) (o : dict) :
  getProperty k0 (map (fun e => if String.eqb (fst e) k then (fst e, v) else e) o)
  = if String.eqb k k0
    then (if hasKey k o then Some v else None)
    else getProperty k0 o.
Proof.
  induction o as [|[k' v'] o IH]; cbn [map fst hasKey existsb].
  - unfold getProperty. simpl. now destruct (String.eqb k k0).
  - destruct (String.eqb_spec k' k) as [->|Hne].
    + rewrite getProperty_cons. cbn [orb fst].
      destruct (String.eqb_spec k k0) as [->|Hne0].
      * reflexivity.
      * rewrite IH, getProperty_cons.
        destruct (String.eqb_spec k k0); [contradiction|reflexivity].
    + rewrite !getProperty_cons, IH. cbn [orb].
      destruct (String.eqb_spec k k0) as [->|Hne0].
      * destruct (String.eqb_spec k' k0); [contradiction|reflexivity].
      * reflexivity.
Qed.


Lemma getProperty_insertIndex (i : Z) (k k0 : string) (v : DiskFile.t) (o : dict) :
  ~ In k (keys o) ->
  getProperty k0 (insertIndex i k v o)
  = if String.eqb k k0 then Some v else getProperty k0 o.
Proof.
  induction o as [|[k' v'] o IH]; intros Hk; simpl.
  - now rewrite getProperty_cons.
  - simpl in Hk.
    assert (Hrest : getProperty k0 ((k, v) :: (k', v') :: o)
                    = if String.eqb k k0 then Some v
                      else getProperty k0 ((k', v') :: o))
      by now rewrite getProperty_cons.
    destruct (arrayIndex k') as [j|]; [|exact Hrest].
    destruct (j <? i); [|exact Hrest].
    rewrite !getProperty_cons, IH by tauto.
    destruct (String.eqb_spec k' k0) as [->|Hne]; [|reflexivity].
    destruct (String.eqb_spec k k0) as [->|]; [tauto|reflexivity].
Qed.

Lemma getProperty_setProperty (k k0 : string) (v : DiskFile.t) (o : dict) :
  getProperty k0 (setProperty k v o)
  = if String.eqb k k0 then Some v else getProperty k0 o.
Proof.
  unfold setProperty. destruct (hasKey k o) eqn:Hk.
  - rewrite getProperty_replace, Hk. reflexivity.
  - apply hasKey_false in Hk. destruct (arrayIndex k) as [i|].
    + now apply getProperty_insertIndex.
    + rewrite getProperty_app. rewrite getProperty_cons.
      destruct (String.eqb_spec k k0) as [->|Hne].
      * now rewrite getProperty_not_in.
      * now destruct (getProperty k0 o).
Qed.


Lemma deleteFile_files (fileName : string) (d : t) :
  files (deleteFile fileName d) = deleteProperty fileName (files d).
Proof.
  unfold deleteFile, fireEvent, invalidateBinaryImage. cbn [eventHandler].
  now destruct (eventHandler d).
Qed.



Lemma getProperty_None_delete (k : string) (o : dict) :
  getProperty k o = None -> deleteProperty k o = o.
Proof.
  unfold deleteProperty. induction o as [|[k' v'] o IH]; [reflexivity|].
  rewrite getProperty_cons. cbn [List.filter fst].
  destruct (String.eqb k' k); [discriminate|].
  intros H. cbn [negb]. now rewrite IH.
Qed.

(** X3.  [deleteFile] of a name that is not in the catalog leaves the
    catalog as it is; the cache is emptied and the handler is called all the
    same. *)
Theorem deleteFile_missing (fileName : string) (d : t) :
  getFile fileName d = None ->
  files (deleteFile fileName d) = files d /\
  binaryImage (deleteFile fileName d) = None /\
  notified (deleteFile fileName d)
  = notified d ++ (if eventHandler d
                   then [mkEvent "fileDeleted" fileName None] else []).
Proof.
  intros Hmissing. rewrite deleteFile_files.
  split; [now apply getProperty_None_delete|].
  unfold deleteFile, fireEvent, invalidateBinaryImage. cbn [eventHandler].
  destruct (eventHandler d); cbn [binaryImage notified]; split; try reflexivity.
  now rewrite app_nil_r.
Qed.

Lemma deleteFile_missing_witness :
  files (deleteFile "GHOST" diskTest) = files diskTest /\
  binaryImage (deleteFile "GHOST" diskTest) = None /\
  notified (deleteFile "GHOST" diskTest)
  = notified diskTest ++ (if eventHandler diskTest
                          then [mkEvent "fileDeleted" "GHOST" None] else []).
Proof. apply (deleteFile_missing "GHOST" diskTest). reflexivity. Defined.

(** ** The catalog stays well formed *)






(** ** Allocation arithmetic *)

(** X5.  For a sector number [n >= 0] and a unit [N > 0], [ceilN n N] is
    the least multiple of [N] that is not below [n]. *)
Theorem ceilN_least_multiple (n N : Z) :
  0 <= n -> 0 < N ->
  ceilN n N mod N = 0 /\ n <= ceilN n N < n + N.
Proof.
  intros Hn HN. unfold ceilN. rewrite Z.rem_mod_nonneg by lia.
  pose proof (Z.mod_pos_bound n N HN) as Hb.
  destruct (Z.eqb_spec (n mod N) 0) as [H0|Hne]; cbn [negb].
  - split; [exact H0|lia].
  - split; [|lia].
    rewrite (Z.div_mod n N) at 1 by lia.
    replace (N * (n / N) + n mod N + (N - n mod N)) with ((n / N + 1) * N) by lia.
    apply Z.mod_mul. lia.
Qed.

Lemma ceilN_least_multiple_witness :
  ceilN 130 8 mod 8 = 0 /\ 130 <= ceilN 130 8 < 130 + 8.
Proof. apply (ceilN_least_multiple 130 8); lia. Defined.

(** X6.  For a unit of [au > 0] sectors, [sectorsToAllocationUnits s au] is
    the number [r] of whole units that [s] sectors need:
    [(r - 1) * au < s <= r * au]. *)
Theorem sectorsToAllocationUnits_ceiling (sectors sectorsPerAllocationUnit : Z) :
  0 < sectorsPerAllocationUnit ->
  (sectorsToAllocationUnits sectors sectorsPerAllocationUnit - 1)
  * sectorsPerAllocationUnit < sectors
  <= sectorsToAllocationUnits sectors sectorsPerAllocationUnit
     * sectorsPerAllocationUnit.
Proof.
  intros Hau. unfold sectorsToAllocationUnits.
  pose proof (Z.div_mod (- sectors) sectorsPerAllocationUnit ltac:(lia)) as Hdm.
  pose proof (Z.mod_pos_bound (- sectors) sectorsPerAllocationUnit Hau) as Hb.
  nia.
Qed.

Lemma sectorsToAllocationUnits_ceiling_witness :
  (sectorsToAllocationUnits 35 8 - 1) * 8 < 35 <= sectorsToAllocationUnits 35 8 * 8.
Proof. apply (sectorsToAllocationUnits_ceiling 35 8). lia. Defined.

(** ** The cache *)

(** X7.  [getBinaryImage] twice is [getBinaryImage] once: the second call
    returns the image of the first and changes nothing, whatever the cache
    held before. *)
Theorem getBinaryImage_idempotent (localeCompare : string -> string -> Z) (d : t) :
  getBinaryImage localeCompare (snd (getBinaryImage localeCompare d))
  = (fst (getBinaryImage localeCompare d), snd (getBinaryImage localeCompare d)).
Proof.
  unfold getBinaryImage at 2 3 4. destruct (binaryImage d) as [image|] eqn:E.
  - unfold fst, snd. unfold getBinaryImage. now rewrite E.
  - unfold fst, snd. unfold getBinaryImage. now rewrite binaryImage_mk.
Qed.

Lemma restoreState_binaryImage (state : string * dict) (d : t) :
  binaryImage (restoreState state d) = binaryImage d.
Proof. unfold restoreState. now rewrite binaryImage_mk. Qed.

(** X8.  [restoreState] does not touch the cache: when an image is cached,
    [getBinaryImage] and [readSector] after [restoreState] still return it,
    whatever catalog and name the state brought; and no notification is
    fired. *)
Theorem restoreState_keeps_cache (localeCompare : string -> string -> Z)
    (state : string * dict) (d : t) (image : list Z) (sectorNo : Z) :
  binaryImage d = Some image ->
  name (restoreState state d) = fst state /\
  fst (getBinaryImage localeCompare (restoreState state d)) = image /\
  fst (readSector localeCompare sectorNo (restoreState state d))
  = fst (readSector localeCompare sectorNo d) /\
  notified (restoreState state d) = notified d.
Proof.
  intros Hcache.
  assert (Hget : getBinaryImage localeCompare (restoreState state d)
                 = (image, restoreState state d)).
  { unfold getBinaryImage. now rewrite restoreState_binaryImage, Hcache. }
  assert (Hget' : getBinaryImage localeCompare d = (image, d)).
  { unfold getBinaryImage. now rewrite Hcache. }
  split; [reflexivity|]. split; [now rewrite Hget|].
  split; [|reflexivity].
  unfold readSector. now rewrite Hget, Hget'.
Qed.

Lemma restoreState_keeps_cache_witness :
  name (restoreState ("NEW"%string, []) (loadBinaryImage bufferOneFile (new "DSK1" true)))
  = "NEW"%string /\
  fst (getBinaryImage rootCompare
         (restoreState ("NEW"%string, []) (loadBinaryImage bufferOneFile (new "DSK1" true))))
  = bufferOneFile /\
  fst (readSector rootCompare 2
         (restoreState ("NEW"%string, []) (loadBinaryImage bufferOneFile (new "DSK1" true))))
  = fst (readSector rootCompare 2 (loadBinaryImage bufferOneFile (new "DSK1" true))) /\
  notified (restoreState ("NEW"%string, []) (loadBinaryImage bufferOneFile (new "DSK1" true)))
  = notified (loadBinaryImage bufferOneFile (new "DSK1" true)).
Proof.
  apply (restoreState_keeps_cache rootCompare ("NEW"%string, [])
           (loadBinaryImage bufferOneFile (new "DSK1" true)) bufferOneFile 2).
  pose proof (loadBinaryImage_effects bufferOneFile (new "DSK1" true)) as H.
  cbv zeta in H. exact (proj2 (proj2 H)).
Defined.

(** ** What [loadTIFile] returns *)

Lemma forZ_ind {S : Type} (P : S -> Prop) (lo : Z) (hi : JS.number)
    (body : Z -> S -> S) (s : S) :
  P s -> (forall i s, P s -> P (body i s)) -> P (forZ lo hi body s).
Proof.
  intros Hs Hbody. unfold forZ. destruct hi as [h|]; [|exact Hs].
  generalize (seqZ lo (h - lo)). intros l. revert s Hs.
  induction l as [|i l IH]; intros s Hs; [exact Hs|].
  cbn [fold_left]. apply IH. now apply Hbody.
Qed.

Lemma sameMeta_refl (f : DiskFile.t) : sameMeta f f.
Proof. repeat split. Qed.

Lemma sameMeta_putRecord (r : DiskFile.Record) (f g : DiskFile.t) :
  sameMeta f g -> sameMeta (DiskFile.putRecord r f) g.
Proof. intros H. exact H. Qed.

Lemma sameMeta_setProgram (p : list Z) (f g : DiskFile.t) :
  sameMeta f g -> sameMeta (DiskFile.setProgram p f) g.
Proof. intros H. exact H. Qed.

Lemma readVariableRecords_meta (fuel : nat) (fileBuffer : list Z)
    (recordLength : JS.number) (i sectorBytesLeft : Z) (file g : DiskFile.t) :
  sameMeta file g ->
  sameMeta (readVariableRecords fuel fileBuffer recordLength i sectorBytesLeft file) g.
Proof.
  revert recordLength i sectorBytesLeft file.
  induction fuel as [|fuel IH]; intros recordLength i sectorBytesLeft file H;
    [exact H|].
  cbn [readVariableRecords].
  destruct (JS.neqb recordLength 255 && (0 <? sectorBytesLeft)); [|exact H].
  cbv zeta. destruct (0 <? _); apply IH; now apply sameMeta_putRecord.
Qed.

Lemma readPlainRecords_meta (fuel : nat) (fileBuffer : list Z)
    (recordLength : JS.number) (i : Z) (data : list JS.number)
    (file g : DiskFile.t) :
  sameMeta file g ->
  sameMeta (snd (readPlainRecords fuel fileBuffer recordLength i data file)) g.
Proof.
  revert i data file.
  induction fuel as [|fuel IH]; intros i data file H; [exact H|].
  cbn [readPlainRecords].
  destruct (i <? Z.of_nat (List.length fileBuffer)); [|exact H].
  cbv zeta. destruct (JS.eqb recordLength _); apply IH;
    [now apply sameMeta_putRecord|exact H].
Qed.

Lemma readContent_meta (fileBuffer : list Z) (h : header) (file : DiskFile.t) :
  readContent fileBuffer h = Return file -> sameMeta file (headerEntry h).
Proof.
  unfold readContent, headerEntry.
  destruct (fileType h =? Disk.FileType_DATA).
  - intros [= <-]. unfold DiskFile.close, DiskFile.open.
    destruct (recordType h =? Disk.RecordType_FIXED).
    + destruct (negb (pcFormat h)).
      * apply forZ_ind; [apply sameMeta_refl|].
        intros sector s Hs. apply forZ_ind; [exact Hs|].
        intros rec s' Hs'. destruct (JS.ltb _ _); [|exact Hs'].
        now apply sameMeta_putRecord.
      * pose proof (readPlainRecords_meta (List.length fileBuffer) fileBuffer
                      (recordLength h) 0 []
                      (DiskFile.new (tiFileName h) (fileType h) (recordType h)
                                    (recordLength h) (datatype h))
                      _ (sameMeta_refl _)) as Hplain.
        destruct (readPlainRecords _ _ _ _ _ _) as [data file'].
        cbn [snd] in Hplain. destruct (0 <? _); [|exact Hplain].
        now apply sameMeta_putRecord.
    + apply forZ_ind; [apply sameMeta_refl|].
      intros sector s Hs. unfold readVariableSector.
      now apply readVariableRecords_meta.
  - destruct (JS.ltb (fileLength h) (Some 0)); [discriminate|].
    intros [= <-]. repeat split.
Qed.

(** X9.  Every call of [loadTIFile] ends in one of three ways: it raises
    the [RangeError]; or it returns [null] and leaves the image exactly as
    it was; or it returns an entry with the name and the type metadata of
    the header it read, after [putFile] of that entry, so that [getFile]
    finds it under its name and the cache is empty. *)
Theorem loadTIFile_outcome (fileName : string) (fileBuffer : option (list Z))
    (ignoreTIFileName : bool) (d : t) :
  match loadTIFile fileName fileBuffer ignoreTIFileName d with
  | RangeError => True
  | Return (None, d') => d' = d
  | Return (Some file, d') =>
      d' = putFile file d /\
      getFile (DiskFile.name file) d' = Some file /\
      binaryImage d' = None /\
      exists buffer, fileBuffer = Some buffer /\
        sameMeta file (headerEntry (readHeader fileName buffer ignoreTIFileName))
  end.
Proof.
  unfold loadTIFile. destruct fileBuffer as [buffer|]; [|reflexivity].
  destruct (128 <? Z.of_nat (List.length buffer)); [|reflexivity].
  destruct (JS.geb _ _); [|reflexivity].
  destruct (readContent buffer _) as [file|] eqn:E; [|exact I].
  split; [reflexivity|].
  split.
  { unfold getFile. rewrite putFile_files, getProperty_setProperty.
    now rewrite String.eqb_refl. }
  split; [apply putFile_binaryImage|].
  exists buffer. split; [reflexivity|]. exact (readContent_meta _ _ _ E).
Qed.

Lemma sectorOffset_readHeader (fileName : string) (fileBuffer : list Z)
    (ignoreTIFileName : bool) :
  let h := readHeader fileName fileBuffer ignoreTIFileName in
  (sectorOffset h = 128 \/ (sectorOffset h = 0 /\ fileType h = Disk.FileType_DATA)).
Proof.
  unfold readHeader. destruct (isTIFILES fileBuffer); [left; reflexivity|].
  destruct (isV9T9 fileName fileBuffer); [left; reflexivity|].
  right. split; reflexivity.
Qed.

(** X10.  [loadTIFile] raises the [RangeError] exactly when the buffer is
    longer than 128 bytes and its header declares a file that is not DATA
    with a negative content length (no sector and an end of file offset). *)
Theorem loadTIFile_RangeError (fileName : string) (fileBuffer : list Z)
    (ignoreTIFileName : bool) (d : t) :
  let h := readHeader fileName fileBuffer ignoreTIFileName in
  loadTIFile fileName (Some fileBuffer) ignoreTIFileName d = RangeError <->
  128 < Z.of_nat (List.length fileBuffer) /\
  fileType h <> Disk.FileType_DATA /\
  JS.ltb (fileLength h) (Some 0) = true.
Proof.
  intros h. pose proof (sectorOffset_readHeader fileName fileBuffer ignoreTIFileName)
    as Hoff. cbv zeta in Hoff. fold h in Hoff.
  unfold loadTIFile. fold h.
  destruct (Z.ltb_spec 128 (Z.of_nat (List.length fileBuffer))) as [Hlong|Hshort].
  2:{ split; [discriminate|]. intros (H & _). lia. }
  unfold readContent.
  destruct (Z.eqb_spec (fileType h) Disk.FileType_DATA) as [Hdata|Hprog].
  - split.
    + destruct (JS.geb _ _); discriminate.
    + intros (_ & H & _). contradiction.
  - destruct (JS.ltb (fileLength h) (Some 0)) eqn:Hneg.
    + destruct (fileLength h) as [len|]; [|discriminate].
      simpl in Hneg. apply Z.ltb_lt in Hneg.
      destruct Hoff as [Hoff|[_ Hdata]]; [|contradiction].
      rewrite Hoff. unfold JS.geb, JS.leb, JS.add.
      destruct (Z.leb_spec (128 + len) (Z.of_nat (List.length fileBuffer))); [|lia].
      split; [intros _; now repeat split|reflexivity].
    + split; [destruct (JS.geb _ _); discriminate|].
      intros (_ & _ & H). discriminate.
Qed.

(** ** The plain path of [loadTIFile] *)

Lemma append_cons (a : string) (c : ascii) (s : string) :
  String.append (String.append a (String c EmptyString)) s
  = String.append a (String c s).
Proof. induction a as [|x a IH]; simpl; [reflexivity|]. now rewrite IH. Qed.

Lemma append_empty (a : string) : String.append a EmptyString = a.
Proof. induction a as [|x a IH]; simpl; [reflexivity|]. now rewrite IH. Qed.

Lemma filterName_keep (cs : list ascii) (fileName acc : string) :
  fold_left (fun tiFileName c =>
               if JS.isNameChar c && true
               then String.append tiFileName (String c EmptyString)
               else tiFileName) cs acc
  = String.append acc (JS.ofChars (List.filter JS.isNameChar cs)).
Proof.
  revert acc. induction cs as [|c cs IH]; intros acc; cbn [fold_left List.filter].
  - simpl. now rewrite append_empty.
  - rewrite IH. rewrite andb_true_r. destruct (JS.isNameChar c); [|reflexivity].
    unfold JS.ofChars. cbn [string_of_list_ascii]. apply append_cons.
Qed.

Lemma filterName_drop (cs : list ascii) (acc : string) :
  fold_left (fun tiFileName c =>
               if JS.isNameChar c && false
               then String.append tiFileName (String c EmptyString)
               else tiFileName) cs acc
  = acc.
Proof.
  revert acc. induction cs as [|c cs IH]; intros acc; cbn [fold_left]; [reflexivity|].
  rewrite andb_false_r. apply IH.
Qed.

Lemma filterName_plain (fileName : string) :
  filterName (fun fileName _ => JS.strlen fileName <? 10) fileName
  = if JS.strlen fileName <? 10 then specifiedName fileName else EmptyString.
Proof.
  unfold filterName, specifiedName.
  destruct (Z.ltb_spec (JS.strlen fileName) 10) as [Hlt|Hge].
  - rewrite (filterName_keep (JS.chars fileName) fileName). cbn [String.append].
    rewrite take_ge; [reflexivity|].
    pose proof (filter_length_le JS.isNameChar (JS.chars fileName)) as Hle.
    rewrite length_chars in Hle. unfold JS.strlen in Hlt. lia.
  - apply filterName_drop.
Qed.

(** X11.  When a buffer longer than 128 bytes is neither a TIFILES nor a
    V9T9 file, [loadTIFile] always succeeds: it adds a DATA, DISPLAY, FIXED
    80 entry whose name is the file name filtered to the characters of TI
    names when the file name has fewer than 10 characters, and is empty
    when it has 10 or more. *)
Theorem loadTIFile_plain (fileName : string) (fileBuffer : list Z)
    (ignoreTIFileName : bool) (d : t) :
  isTIFILES fileBuffer = false ->
  isV9T9 fileName fileBuffer = false ->
  128 < Z.of_nat (List.length fileBuffer) ->
  exists file,
    loadTIFile fileName (Some fileBuffer) ignoreTIFileName d
    = Return (Some file, putFile file d) /\
    DiskFile.name file
    = (if JS.strlen fileName <? 10 then specifiedName fileName else EmptyString) /\
    DiskFile.fileType file = Disk.FileType_DATA /\
    DiskFile.recordType file = Disk.RecordType_FIXED /\
    DiskFile.recordLength file = Some 80 /\
    DiskFile.dataType file = Disk.DataType_DISPLAY.
Proof.
  intros Hti Hv9 Hlong.
  assert (Hh : readHeader fileName fileBuffer ignoreTIFileName
               = mkHeader
                   (filterName (fun fileName _ => JS.strlen fileName <? 10) fileName)
                   (Some (Z.of_nat (List.length fileBuffer) / 256)) (Some 3) None
                   (Some 80) Disk.RecordType_FIXED Disk.DataType_DISPLAY
                   Disk.FileType_DATA (Some (Z.of_nat (List.length fileBuffer))) 0 true).
  { unfold readHeader. now rewrite Hti, Hv9. }
  unfold loadTIFile. rewrite Hh.
  destruct (Z.ltb_spec 128 (Z.of_nat (List.length fileBuffer))); [|lia].
  cbn [sectorOffset fileLength]. unfold JS.geb, JS.leb, JS.add.
  rewrite Z.add_0_l, Z.leb_refl.
  destruct (readContent fileBuffer _) as [file|] eqn:E.
  - exists file. split; [reflexivity|].
    destruct (readContent_meta _ _ _ E) as (Hn & Hf & Hr & Hl & Hd).
    rewrite Hn, Hf, Hr, Hl, Hd. unfold headerEntry.
    cbn [fileType tiFileName recordType recordLength datatype].
    rewrite Z.eqb_refl. cbn [DiskFile.new DiskFile.name DiskFile.fileType
      DiskFile.recordType DiskFile.recordLength DiskFile.dataType].
    rewrite filterName_plain. repeat split.
  - unfold readContent in E. cbn [fileType] in E.
    rewrite Z.eqb_refl in E. discriminate E.
Qed.

Lemma loadTIFile_plain_witness :
  exists file,
    loadTIFile "NOTES" (Some bufferPlain) false (new "DSK1" true)
    = Return (Some file, putFile file (new "DSK1" true)) /\
    DiskFile.name file
    = (if JS.strlen "NOTES" <? 10 then specifiedName "NOTES" else EmptyString) /\
    DiskFile.fileType file = Disk.FileType_DATA /\
    DiskFile.recordType file = Disk.RecordType_FIXED /\
    DiskFile.recordLength file = Some 80 /\
    DiskFile.dataType file = Disk.DataType_DISPLAY.
Proof.
  apply (loadTIFile_plain "NOTES" bufferPlain false (new "DSK1" true)).
  - reflexivity.
  - vm_compute. reflexivity.
  - vm_compute. reflexivity.
Defined.

(** ** The image that [createBinaryImage] builds *)

Lemma ToUint8_range (v : JS.number) : 0 <= JS.ToUint8 v < 256.
Proof.
  destruct v as [z|]; simpl; [|lia]. apply Z.mod_pos_bound. lia.
Qed.

Lemma set_isUint8Array (n : nat) (a : JS.array) (i : Z) (v : JS.number) :
  isUint8Array n a -> isUint8Array n (JS.set a i v).
Proof.
  intros (l & -> & Hlen & Hall). unfold JS.set.
  destruct (i <? 0); [now exists l|].
  eexists. split; [reflexivity|]. split; [now rewrite length_insert|].
  apply Forall_insert; [exact Hall|apply ToUint8_range].
Qed.

Lemma fold_isUint8Array {X S : Type} (n : nat) (proj : S -> JS.array)
    (step : S -> X -> S) (xs : list X) (s : S) :
  (forall s x, isUint8Array n (proj s) -> isUint8Array n (proj (step s x))) ->
  isUint8Array n (proj s) -> isUint8Array n (proj (fold_left step xs s)).
Proof.
  intros Hstep. revert s. induction xs as [|x xs IH]; intros s Hs; [exact Hs|].
  cbn [fold_left]. apply IH. now apply Hstep.
Qed.

Lemma writeByte_isUint8Array (n : nat) (a : JS.array) (i : Z) (b : JS.number) :
  isUint8Array n a -> isUint8Array n (fst (writeByte a i b)).
Proof. intros H. unfold writeByte. cbn [fst]. now apply set_isUint8Array. Qed.

Lemma writeWord_isUint8Array (n : nat) (a : JS.array) (i : Z) (w : JS.number) :
  isUint8Array n a -> isUint8Array n (fst (writeWord a i w)).
Proof.
  intros H. unfold writeWord. cbn [fst]. now repeat apply set_isUint8Array.
Qed.

Lemma writeLEWord_isUint8Array (n : nat) (a : JS.array) (i : Z) (w : JS.number) :
  isUint8Array n a -> isUint8Array n (fst (writeLEWord a i w)).
Proof.
  intros H. unfold writeLEWord. cbn [fst]. now repeat apply set_isUint8Array.
Qed.

Lemma writeString_isUint8Array (n : nat) (a : JS.array) (i : Z) (str : string)
    (padLen : Z) :
  isUint8Array n a -> isUint8Array n (fst (writeString a i str padLen)).
Proof.
  intros H. unfold writeString.
  apply (fold_isUint8Array n fst).
  - intros [a' i'] x Ha. cbn [fst] in *. now apply set_isUint8Array.
  - apply (fold_isUint8Array n fst); [|exact H].
    intros [a' i'] x Ha. cbn [fst] in *. now apply set_isUint8Array.
Qed.

Lemma writeBytes_isUint8Array (n : nat) (a : JS.array) (i : Z)
    (bytes : list JS.number) :
  isUint8Array n a -> isUint8Array n (fst (writeBytes a i bytes)).
Proof.
  intros H. unfold writeBytes. apply (fold_isUint8Array n fst); [|exact H].
  intros [a' i'] x Ha. now apply writeByte_isUint8Array.
Qed.

Lemma closeSector_isUint8Array (n : nat) (a : JS.array) (i sectorBytesLeft : Z) :
  isUint8Array n a -> isUint8Array n (fst (fst (closeSector a i sectorBytesLeft))).
Proof.
  intros H. rewrite closeSector_any. destruct (0 <? sectorBytesLeft); [|exact H].
  cbn [fst]. now apply writeBytes_isUint8Array.
Qed.

Lemma markAllocated_isUint8Array (n : nat) (a : JS.array) (i : Z) :
  isUint8Array n a -> isUint8Array n (markAllocated a i).
Proof. intros H. unfold markAllocated, orByte. now apply set_isUint8Array. Qed.

Lemma createBinaryImage_data_isUint8Array (n : nat) (file : DiskFile.t)
    (a : JS.array) (startSectorNo : Z) :
  isUint8Array n a ->
  isUint8Array n (fst (createBinaryImage_data file a startSectorNo)).
Proof.
  intros H. unfold createBinaryImage_data.
  destruct (DiskFile.fileType file =? Disk.FileType_DATA).
  - destruct (DiskFile.recordType file =? Disk.RecordType_FIXED).
    + match goal with |- context [fold_left ?f ?xs ?s] =>
        pose proof (fold_isUint8Array n (fun st => fst (fst (fst st))) f xs s) as Hf
      end.
      destruct (fold_left _ _ _) as [[[a' n'] s'] r']. cbn [fst] in *.
      apply Hf; [|exact H].
      intros [[[a1 n1] s1] r1] x Ha. cbn [fst] in *.
      unfold createBinaryImage_fixed.
      pose proof (writeBytes_isUint8Array n a1 n1 (DiskFile.getData x) Ha) as Hw.
      destruct (writeBytes a1 n1 (DiskFile.getData x)) as [a2 n2]. cbn [fst] in *.
      now destruct (JS.eqb _ _).
    + match goal with |- context [fold_left ?f ?xs ?s] =>
        pose proof (fold_isUint8Array n (fun st => fst (fst (fst st))) f xs s) as Hf
      end.
      destruct (fold_left _ _ _) as [[[a' n'] s'] r']. cbn [fst] in *.
      pose proof (closeSector_isUint8Array n a' n' r') as Hc.
      destruct (closeSector a' n' r') as [[a3 n3] r3]. cbn [fst] in *.
      apply Hc. apply Hf; [|exact H].
      intros [[[a1 n1] s1] r1] x Ha. cbn [fst] in *.
      unfold createBinaryImage_variable.
      assert (Hpre : isUint8Array n
                (fst (fst (fst
                  (if r1 <=? Z.of_nat (List.length (DiskFile.getData x))
                   then let '(dskImg, n0, _) := closeSector a1 n1 r1 in
                        (dskImg, (s1 + 1) * 256, s1 + 1, 256)
                   else (a1, n1, s1, r1)))))).
      { destruct (_ <=? _); [|exact Ha].
        pose proof (closeSector_isUint8Array n a1 n1 r1 Ha) as Hc1.
        now destruct (closeSector a1 n1 r1) as [[a4 n4] r4]. }
      destruct (if r1 <=? _ then _ else _) as [[[a5 n5] s5] r5]. cbn [fst] in *.
      pose proof (writeByte_isUint8Array n a5 n5
                    (Some (Z.of_nat (List.length (DiskFile.getData x)))) Hpre) as Hb.
      destruct (writeByte a5 n5 _) as [a6 n6]. cbn [fst] in *.
      pose proof (writeBytes_isUint8Array n a6 n6 (DiskFile.getData x) Hb) as Hw.
      now destruct (writeBytes a6 n6 _) as [a7 n7].
  - pose proof (writeBytes_isUint8Array n a (startSectorNo * 256)
                  (map Some (DiskFile.program file)) H) as Hw.
    now destruct (writeBytes a _ _) as [a2 n2].
Qed.

Ltac write_step H :=
  match goal with
  | |- context [writeString ?a ?i ?s ?p] =>
      let Hn := fresh "Hu" in
      pose proof (writeString_isUint8Array _ a i s p H) as Hn;
      destruct (writeString a i s p) as [? ?]; cbn [fst] in Hn
  | |- context [writeWord ?a ?i ?w] =>
      let Hn := fresh "Hu" in
      pose proof (writeWord_isUint8Array _ a i w H) as Hn;
      destruct (writeWord a i w) as [? ?]; cbn [fst] in Hn
  | |- context [writeLEWord ?a ?i ?w] =>
      let Hn := fresh "Hu" in
      pose proof (writeLEWord_isUint8Array _ a i w H) as Hn;
      destruct (writeLEWord a i w) as [? ?]; cbn [fst] in Hn
  | |- context [writeByte ?a ?i ?b] =>
      let Hn := fresh "Hu" in
      pose proof (writeByte_isUint8Array _ a i b H) as Hn;
      destruct (writeByte a i b) as [? ?]; cbn [fst] in Hn
  | |- context [createBinaryImage_data ?f ?a ?s] =>
      let Hn := fresh "Hu" in
      pose proof (createBinaryImage_data_isUint8Array _ f a s H) as Hn;
      destruct (createBinaryImage_data f a s) as [? ?]; cbn [fst] in Hn
  end.

Lemma createBinaryImage_file_isUint8Array (n : nat)
    (sectorsPerAU sectorsPerAUForDataChainPointers firstFdrSector : Z)
    (st : JS.array * Z * Z) (file : DiskFile.t) :
  isUint8Array n (fst (fst st)) ->
  isUint8Array n
    (fst (fst (createBinaryImage_file sectorsPerAU sectorsPerAUForDataChainPointers
                 firstFdrSector st file))).
Proof.
  destruct st as [[a nextDataSectorNo] f]. cbn [fst]. intros H0.
  unfold createBinaryImage_file.
  write_step H0. write_step Hu. write_step Hu0. write_step Hu1. write_step Hu2.
  write_step Hu3. write_step Hu4. write_step Hu5. write_step Hu6. write_step Hu7.
  write_step Hu8. write_step Hu9. write_step Hu10.
  cbn [fst]. apply markAllocated_isUint8Array.
  apply (fold_isUint8Array n (fun a => a)); [|exact Hu11].
  intros a' i Ha. now apply markAllocated_isUint8Array.
Qed.

Lemma newUint8Array_isUint8Array (len : JS.number) :
  isUint8Array (match len with Some z => Z.to_nat z | None => 0%nat end)
               (JS.Uint8Array (JS.newUint8Array len)).
Proof.
  eexists. split; [reflexivity|]. unfold JS.newUint8Array.
  destruct len as [z|].
  - split; [apply length_replicate|]. apply Forall_replicate. lia.
  - split; [reflexivity|constructor].
Qed.

Lemma createBinaryImage_isUint8Array (localeCompare : string -> string -> Z) (d : t) :
  isUint8Array
    (match totalSectors (geometry d) with
     | Some total => Z.to_nat (total * 256)
     | None => 0%nat
     end)
    (JS.Uint8Array (createBinaryImage localeCompare d)).
Proof.
  unfold createBinaryImage.
  pose proof (newUint8Array_isUint8Array
                (JS.mul (totalSectors (geometry d)) (Some 256))) as H0.
  replace (match JS.mul (totalSectors (geometry d)) (Some 256) with
           | Some z => Z.to_nat z | None => 0%nat end)
    with (match totalSectors (geometry d) with
          | Some total => Z.to_nat (total * 256) | None => 0%nat end) in H0
    by now destruct (totalSectors (geometry d)).
  write_step H0. write_step Hu. write_step Hu0. write_step Hu1. write_step Hu2.
  write_step Hu3. write_step Hu4. write_step Hu5. write_step Hu6.
  match goal with |- context [fold_left (fun dskImg i => JS.set dskImg i (Some 255)) ?xs ?a] =>
    assert (Hfill : isUint8Array _ (fold_left (fun dskImg i => JS.set dskImg i (Some 255)) xs a))
      by (apply (fold_isUint8Array _ (fun a => a)); [|exact Hu7];
          intros a' i' Ha; now apply set_isUint8Array)
  end.
  match goal with |- context [fold_left (createBinaryImage_file ?x ?y ?z) ?xs ?s] =>
    pose proof (fold_isUint8Array _ (fun st => fst (fst st))
                  (createBinaryImage_file x y z) xs s
                  (createBinaryImage_file_isUint8Array _ x y z) Hfill) as Hfiles;
    destruct (fold_left (createBinaryImage_file x y z) xs s) as [[a' ?] ?]
  end.
  cbn [fst] in Hfiles. destruct Hfiles as (l & -> & Hlen & Hall).
  exists l. now split.
Qed.

(** X12.  The image that [createBinaryImage] returns has exactly
    [256 * totalSectors] elements (none when the total is not a number),
    each of them a byte: what the files would need beyond the end of the
    disk is dropped, never appended. *)
Theorem createBinaryImage_size (localeCompare : string -> string -> Z) (d : t) :
  List.length (createBinaryImage localeCompare d)
  = match totalSectors (geometry d) with
    | Some total => Z.to_nat (total * 256)
    | None => 0%nat
    end
  /\ Forall (fun b => 0 <= b < 256) (createBinaryImage localeCompare d).
Proof.
  destruct (createBinaryImage_isUint8Array localeCompare d)
    as (l & [= <-] & Hlen & Hall).
  now split.
Qed.

(** ** Sectors of the image *)

Lemma readSector_map (localeCompare : string -> string -> Z) (sectorNo : Z) (d : t) :
  fst (readSector localeCompare sectorNo d)
  = map (fun i => JS.ToUint8
                    (JS.u8get (fst (getBinaryImage localeCompare d))
                              (Some (256 * sectorNo + i))))
        (seqZ 0 256).
Proof.
  unfold readSector.
  destruct (getBinaryImage localeCompare d) as [tiDiskImage d']. cbn [fst].
  unfold JS.newUint8Array.
  rewrite (fold_set_Uint8Array
             (fun i => JS.u8get tiDiskImage (Some (256 * sectorNo + i))))
    by (rewrite length_replicate; lia).
  reflexivity.
Qed.

Lemma slice_map (image : list Z) (sectorNo : Z) :
  0 <= sectorNo ->
  256 * (sectorNo + 1) <= Z.of_nat (List.length image) ->
  Forall (fun b => 0 <= b < 256) image ->
  map (fun i => JS.ToUint8 (JS.u8get image (Some (256 * sectorNo + i)))) (seqZ 0 256)
  = take 256 (drop (Z.to_nat (256 * sectorNo)) image).
Proof.
  intros Hn Hlen Hbytes. apply list_eq. intros i.
  rewrite list_lookup_fmap.
  destruct (Nat.lt_ge_cases i 256) as [Hi|Hi].
  - rewrite lookup_seqZ_lt, lookup_take_lt, lookup_drop by lia.
    cbn [fmap option_fmap option_map]. unfold JS.u8get.
    destruct (Z.ltb_spec (256 * sectorNo + (0 + Z.of_nat i)) 0); [lia|].
    replace (Z.to_nat (256 * sectorNo + (0 + Z.of_nat i)))
      with (Z.to_nat (256 * sectorNo) + i)%nat by lia.
    destruct (lookup_lt_is_Some_2 image (Z.to_nat (256 * sectorNo) + i))
      as [b Hb]; [lia|].
    rewrite Hb. cbn [JS.ToUint8]. f_equal.
    apply Z.mod_small.
    apply (proj1 (Forall_lookup _ _) Hbytes _ _ Hb).
  - rewrite lookup_seqZ_ge, lookup_take_ge by lia. reflexivity.
Qed.

(** X13.  On an image without cache, [readSector(n)] for a sector of the
    disk returns bytes [256 n .. 256 n + 255] of what [createBinaryImage]
    builds, and leaves that image in the cache. *)
Theorem readSector_of_created_image (localeCompare : string -> string -> Z)
    (sectorNo total : Z) (d : t) :
  binaryImage d = None ->
  totalSectors (geometry d) = Some total ->
  0 <= sectorNo < total ->
  fst (readSector localeCompare sectorNo d)
  = take 256 (drop (Z.to_nat (256 * sectorNo)) (createBinaryImage localeCompare d))
  /\ binaryImage (snd (readSector localeCompare sectorNo d))
     = Some (createBinaryImage localeCompare d).
Proof.
  intros Hcache Htotal Hn.
  destruct (createBinaryImage_isUint8Array localeCompare d)
    as (l & [= <-] & Hlen & Hbytes).
  rewrite Htotal in Hlen.
  assert (Hget : getBinaryImage localeCompare d
                 = (createBinaryImage localeCompare d,
                    mk (name d) (files d) (geometry d)
                       (Some (createBinaryImage localeCompare d))
                       (eventHandler d) (notified d))).
  { unfold getBinaryImage. now rewrite Hcache. }
  split.
  - rewrite readSector_map, Hget. unfold fst.
    apply slice_map; [lia| |exact Hbytes]. rewrite Hlen. lia.
  - unfold readSector. rewrite Hget. unfold snd. now rewrite binaryImage_mk.
Qed.

Lemma readSector_of_created_image_witness :
  fst (readSector rootCompare 2 diskTest)
  = take 256 (drop (Z.to_nat (256 * 2)) (createBinaryImage rootCompare diskTest))
  /\ binaryImage (snd (readSector rootCompare 2 diskTest))
     = Some (createBinaryImage rootCompare diskTest).
Proof.
  apply (readSector_of_created_image rootCompare 2 1440 diskTest).
  - reflexivity.
  - reflexivity.
  - lia.
Defined.

(** ** Loading a disk without files *)

Lemma omap_all_None {A B : Type} (f : A -> option B) (l : list A) :
  Forall (fun x => f x = None) l -> omap f l = [].
Proof.
  induction 1 as [|x l Hx _ IH]; [reflexivity|].
  change (omap f (x :: l)) with (match f x with Some y => y :: omap f l | None => omap f l end).
  now rewrite Hx.
Qed.

Lemma readWord_zero (fileBuffer : list Z) (k : Z) :
  0 <= k ->
  fileBuffer !! Z.to_nat k = Some 0 ->
  fileBuffer !! Z.to_nat (k + 1) = Some 0 ->
  readWord fileBuffer (Some k) = Some 0.
Proof.
  intros Hk H0 H1. unfold readWord, JS.add, JS.u8get.
  destruct (Z.ltb_spec k 0); [lia|].
  destruct (Z.ltb_spec (k + 1) 0); [lia|].
  now rewrite H0, H1.
Qed.

(** X14.  When sector 1 of the buffer, the descriptor index, holds only
    zeros, [loadBinaryImage] leaves an empty catalog, calls no handler, and
    caches the buffer. *)
Theorem loadBinaryImage_blank_index (fileBuffer : list Z) (d : t) :
  (forall k, (256 <= k < 512)%nat -> fileBuffer !! k = Some 0) ->
  files (loadBinaryImage fileBuffer d) = [] /\
  notified (loadBinaryImage fileBuffer d) = notified d /\
  binaryImage (loadBinaryImage fileBuffer d) = Some fileBuffer.
Proof.
  intros Hblank.
  pose proof (loadBinaryImage_effects fileBuffer d) as H. cbv zeta in H.
  destruct H as (Hn & Hf & Hb).
  assert (Hnone : slotEntries fileBuffer
                    (getSectorsPerAllocationUnitForDataChainPointers d) = []).
  { unfold slotEntries. apply omap_all_None. apply Forall_seqZ. intros i Hi.
    unfold slotEntry. rewrite readWord_zero; [reflexivity|lia| |];
      apply Hblank; lia. }
  rewrite Hnone in Hn, Hf.
  split; [exact Hf|]. split; [|exact Hb].
  rewrite Hn. destruct (eventHandler d); apply app_nil_r.
Qed.

Lemma loadBinaryImage_blank_index_witness :
  files (loadBinaryImage bufferBlank (new "DSK1" true)) = [] /\
  notified (loadBinaryImage bufferBlank (new "DSK1" true))
  = notified (new "DSK1" true) /\
  binaryImage (loadBinaryImage bufferBlank (new "DSK1" true)) = Some bufferBlank.
Proof.
  apply (loadBinaryImage_blank_index bufferBlank (new "DSK1" true)).
  intros k Hk. unfold bufferBlank.
  rewrite lookup_app_r by (simpl; lia).
  apply lookup_replicate_2. simpl. lia.
Defined.

(** ** Words of sixteen bits *)

Lemma shl_byte (hi : Z) : 0 <= hi < 256 -> JS.shl (Some hi) 8 = hi * 256.
Proof.
  intros H. unfold JS.shl. rewrite (ToInt32_small hi) by lia.
  change (8 mod 32) with 8. rewrite Z.shiftl_mul_pow2 by lia.
  change (2 ^ 8) with 256. apply ToInt32_small. lia.
Qed.

Lemma land_shifted_byte (hi lo : Z) :
  0 <= lo < 256 -> Z.land (hi * 256) lo = 0.
Proof.
  intros Hlo. apply Z.bits_inj'. intros n Hn.
  rewrite Z.land_spec, Z.bits_0.
  destruct (Z.lt_ge_cases n 8) as [Hlt|Hge].
  - change 256 with (2 ^ 8). rewrite Z.mul_pow2_bits_low by lia. reflexivity.
  - rewrite (Z.bits_above_log2 lo n); [apply andb_false_r|lia|].
    destruct (Z.eq_dec lo 0) as [->|Hne]; [simpl; lia|].
    apply Z.log2_lt_pow2; [lia|].
    apply Z.lt_le_trans with (2 ^ 8); [simpl; lia|].
    apply Z.pow_le_mono_r; lia.
Qed.

Lemma bor_word (hi lo : Z) :
  0 <= hi < 256 -> 0 <= lo < 256 ->
  JS.bor (Some (JS.shl (Some hi) 8)) (Some lo) = hi * 256 + lo.
Proof.
  intros Hhi Hlo. rewrite shl_byte by lia. unfold JS.bor.
  rewrite !ToInt32_small by lia.
  rewrite <- Z.lxor_lor by (now apply land_shifted_byte).
  symmetry. apply Z.add_nocarry_lxor. now apply land_shifted_byte.
Qed.

Lemma word_hi (w : Z) :
  0 <= w < 65536 -> JS.shr (Some (JS.band (Some w) (Some 0xFF00))) 8 = w / 256.
Proof.
  intros Hw. unfold JS.shr, JS.band. change (8 mod 32) with 8.
  rewrite (ToInt32_small w), (ToInt32_small 65280) by lia.
  assert (Hland : Z.land w 65280 = (w / 256) * 256).
  { change 65280 with (Z.shiftl 255 8).
    apply Z.bits_inj'. intros n Hn.
    rewrite Z.land_spec. change 256 with (2 ^ 8).
    destruct (Z.lt_ge_cases n 8) as [Hlt|Hge].
    - rewrite Z.mul_pow2_bits_low by lia.
      rewrite Z.shiftl_spec_low by lia. apply andb_false_r.
    - rewrite Z.mul_pow2_bits by lia.
      rewrite Z.shiftl_spec_high by lia.
      rewrite Z.div_pow2_bits by lia.
      replace (n - 8 + 8) with n by lia.
      destruct (Z.lt_ge_cases n 16) as [Hlt16|Hge16].
      + replace (Z.testbit 255 (n - 8)) with true; [apply andb_true_r|].
        assert (Hcases : n - 8 = 0 \/ n - 8 = 1 \/ n - 8 = 2 \/ n - 8 = 3 \/
                         n - 8 = 4 \/ n - 8 = 5 \/ n - 8 = 6 \/ n - 8 = 7) by lia.
        destruct Hcases as [->|[->|[->|[->|[->|[->|[->| ->]]]]]]]; reflexivity.
      + rewrite (Z.bits_above_log2 w n); [reflexivity|lia|].
        destruct (Z.eq_dec w 0) as [->|Hne]; [simpl; lia|].
        apply Z.log2_lt_pow2; [lia|].
        apply Z.lt_le_trans with (2 ^ 16); [simpl; lia|].
        apply Z.pow_le_mono_r; lia. }
  assert (0 <= w / 256 < 256)
    by (split; [apply Z.div_pos; lia|apply Z.div_lt_upper_bound; lia]).
  rewrite Hland, ToInt32_small by lia.
  rewrite Z.shiftr_div_pow2 by lia. change (2 ^ 8) with 256.
  apply Z.div_mul. lia.
Qed.

Lemma word_lo (w : Z) :
  0 <= w < 65536 -> JS.band (Some w) (Some 0x00FF) = w mod 256.
Proof. intros Hw. rewrite band_255. now rewrite ToInt32_small by lia. Qed.

(** X15.  A word of sixteen bits that [writeWord] stores in a typed array
    is the word that the decoders read back from its two bytes, with
    [(b << 8) + b'] as in [loadBinaryImage] and with [b << 8 | b'] as in
    [loadTIFile]. *)
Theorem writeWord_readWord (l : list Z) (k w : Z) :
  0 <= k -> k + 1 < Z.of_nat (List.length l) -> 0 <= w < 65536 ->
  let l' := JS.toUint8Array (fst (writeWord (JS.Uint8Array l) k (Some w))) in
  List.length l' = List.length l /\
  readWord l' (Some k) = Some w /\
  JS.bor (Some (JS.shl (JS.u8get l' (Some k)) 8)) (JS.u8get l' (Some (k + 1))) = w.
Proof.
  intros Hk Hlen Hw l'. subst l'. unfold writeWord. cbn [fst].
  unfold JS.set. destruct (Z.ltb_spec k 0); [lia|].
  destruct (Z.ltb_spec (k + 1) 0); [lia|]. cbn [JS.toUint8Array].
  rewrite word_hi, word_lo by lia.
  assert (Hhi : 0 <= w / 256 < 256)
    by (split; [apply Z.div_pos; lia|apply Z.div_lt_upper_bound; lia]).
  pose proof (Z.mod_pos_bound w 256 ltac:(lia)) as Hlo.
  cbn [JS.ToUint8]. rewrite (Z.mod_small (w / 256)), Z.mod_mod by lia.
  assert (Hget0 : JS.u8get (<[Z.to_nat (k + 1):=w mod 256]>
                              (<[Z.to_nat k:=w / 256]> l)) (Some k)
                  = Some (w / 256)).
  { unfold JS.u8get. destruct (Z.ltb_spec k 0); [lia|].
    rewrite list_lookup_insert_ne by lia.
    apply list_lookup_insert_eq. lia. }
  assert (Hget1 : JS.u8get (<[Z.to_nat (k + 1):=w mod 256]>
                              (<[Z.to_nat k:=w / 256]> l)) (Some (k + 1))
                  = Some (w mod 256)).
  { unfold JS.u8get. destruct (Z.ltb_spec (k + 1) 0); [lia|].
    apply list_lookup_insert_eq. rewrite length_insert. lia. }
  split; [now rewrite !length_insert|].
  pose proof (Z.div_mod w 256 ltac:(lia)) as Hdm.
  split.
  - unfold readWord. cbn [JS.add]. rewrite Hget1, Hget0, shl_byte by lia.
    cbn [JS.add]. f_equal. lia.
  - rewrite Hget0, Hget1, bor_word by lia. lia.
Qed.

Lemma writeWord_readWord_witness :
  let l' := JS.toUint8Array
              (fst (writeWord (JS.Uint8Array (replicate 16 0)) 10 (Some 1440))) in
  List.length l' = List.length (replicate 16 0) /\
  readWord l' (Some 10) = Some 1440 /\
  JS.bor (Some (JS.shl (JS.u8get l' (Some 10)) 8)) (JS.u8get l' (Some (10 + 1)))
  = 1440.
Proof.
  apply (writeWord_readWord (replicate 16 0) 10 1440); [lia|simpl; lia|lia].
Defined.

(** ** The header of [createTIFile], element by element *)

Lemma writeString_Array_eq (l : list JS.number) (str : string) (padLen : Z) :
  writeString (JS.Array l) (alen l) str padLen
  = (JS.Array (l ++ stringBytes str padLen), alen (l ++ stringBytes str padLen)).
Proof.
  unfold writeString, stringBytes.
  rewrite (fold_append (fun c => Some (JS.charCode c))).
  rewrite (fold_append (fun _ : Z => Some 32)).
  now rewrite <- app_assoc.
Qed.

Lemma writeWord_Array_eq (l : list JS.number) (w : JS.number) :
  writeWord (JS.Array l) (alen l) w
  = (JS.Array (l ++ wordBytes w), alen (l ++ wordBytes w)).
Proof.
  unfold writeWord, wordBytes. rewrite set_Array_end.
  replace (alen l + 1) with (alen (l ++ [Some (JS.shr (Some (JS.band w (Some 65280))) 8)]))
    by (rewrite alen_app; reflexivity).
  rewrite set_Array_end, <- app_assoc. f_equal.
  rewrite !alen_app. unfold alen. simpl. lia.
Qed.

Lemma writeLEWord_Array_eq (l : list JS.number) (w : JS.number) :
  writeLEWord (JS.Array l) (alen l) w
  = (JS.Array (l ++ [Some (JS.band w (Some 0x00FF));
                     Some (JS.shr (Some (JS.band w (Some 0xFF00))) 8)]),
     alen (l ++ [Some (JS.band w (Some 0x00FF));
                 Some (JS.shr (Some (JS.band w (Some 0xFF00))) 8)])).
Proof.
  unfold writeLEWord. rewrite set_Array_end.
  replace (alen l + 1) with (alen (l ++ [Some (JS.band w (Some 255))]))
    by (rewrite alen_app; reflexivity).
  rewrite set_Array_end, <- app_assoc. f_equal.
  rewrite !alen_app. unfold alen. simpl. lia.
Qed.

Lemma alen_stringBytes (str : string) (padLen : Z) :
  0 <= padLen -> alen (stringBytes str padLen) = padLen.
Proof.
  intros Hpad. unfold alen, stringBytes.
  rewrite length_app, !length_map, length_take, length_seqZ, length_chars.
  unfold JS.strlen. lia.
Qed.

Lemma createTIFile_header_eq (fileName : string) (file : DiskFile.t) :
  createTIFile_header fileName file
  = (JS.Array (tiHeader fileName file), 128)
  /\ alen (tiHeader fileName file) = 128.
Proof.
  assert (Hlen : alen (tiHeader fileName file) = 128).
  { unfold tiHeader. rewrite !alen_app, !alen_stringBytes by lia.
    unfold alen. simpl. lia. }
  split; [|exact Hlen].
  unfold createTIFile_header.
  change 0 with (alen []) at 1.
  rewrite writeByte_Array, writeString_Array_eq, writeWord_Array_eq.
  rewrite !writeByte_Array, writeLEWord_Array_eq, writeString_Array_eq.
  match goal with |- context [fold_left _ (seqZ (alen ?l) _) _] =>
    assert (Hl : alen l = 26)
      by (rewrite !alen_app, !alen_stringBytes by lia; unfold alen; simpl; lia);
    replace (128 - alen l) with (Z.of_nat 102) by lia;
    rewrite (fold_zero_fill 102 l)
  end.
  rewrite <- Hlen. unfold tiHeader. cbn [app].
  rewrite <- !app_assoc. cbn [app]. reflexivity.
Qed.

(** ** Names in a header *)

Lemma isNameChar_facts (c : ascii) :
  JS.isNameChar c = true ->
  JS.isWhiteSpace c = false /\ 32 <= JS.charCode c < 128 /\ JS.charCode c <> 0xCA.
Proof.
  destruct c as [[] [] [] [] [] [] [] []]; vm_compute;
    (discriminate || (intros _; repeat split; congruence)).
Qed.

Lemma fromCharCode_charCode (c : ascii) : JS.fromCharCode (Some (JS.charCode c)) = c.
Proof.
  unfold JS.fromCharCode, JS.charCode, JS.ToUint8.
  pose proof (nat_ascii_bounded c) as Hb.
  rewrite Z.mod_small by lia. rewrite Nat2Z.id. apply ascii_nat_embedding.
Qed.

Lemma chars_ofChars (l : list ascii) : JS.chars (JS.ofChars l) = l.
Proof. apply list_ascii_of_string_of_list_ascii. Qed.

Lemma ofChars_chars (s : string) : JS.ofChars (JS.chars s) = s.
Proof. apply string_of_list_ascii_of_string. Qed.

Lemma trimStart_spaces (k : nat) (l : list ascii) :
  JS.trimStart (replicate k " "%char ++ l) = JS.trimStart l.
Proof. induction k as [|k IH]; [reflexivity|exact IH]. Qed.

Lemma trimStart_keep (l : list ascii) :
  match l with c :: _ => JS.isWhiteSpace c = false | [] => True end ->
  JS.trimStart l = l.
Proof. destruct l as [|c l]; [reflexivity|]. cbn [JS.trimStart]. now intros ->. Qed.

Lemma rev_replicate {A : Type} (k : nat) (x : A) : rev (replicate k x) = replicate k x.
Proof.
  induction k as [|k IH]; [reflexivity|].
  cbn [replicate rev]. rewrite IH.
  clear IH. induction k as [|k IH]; [reflexivity|].
  cbn [replicate app]. now rewrite IH.
Qed.

(** A name without white space, padded with spaces, trims to itself. *)
Lemma trim_padded (cs : list ascii) (k : nat) :
  Forall (fun c => JS.isWhiteSpace c = false) cs ->
  JS.trim (JS.ofChars (cs ++ replicate k " "%char)) = JS.ofChars cs.
Proof.
  intros Hcs. unfold JS.trim. rewrite chars_ofChars. f_equal.
  destruct cs as [|c cs].
  - cbn [app]. rewrite <- (app_nil_r (replicate k _)), trimStart_spaces. reflexivity.
  - rewrite (trimStart_keep ((c :: cs) ++ _))
      by (cbn [app]; now apply Forall_cons in Hcs).
    rewrite rev_app_distr, rev_replicate, trimStart_spaces.
    rewrite trimStart_keep; [apply rev_involutive|].
    destruct (rev (c :: cs)) as [|x xs] eqn:E; [exact I|].
    rewrite Forall_forall in Hcs. apply Hcs.
    apply list_elem_of_In, in_rev. rewrite E. now left.
Qed.

(** The loop that reads a name returns the characters whose codes the
    buffer holds, when they are all printable. *)
Lemma readName_chars (buf : list Z) (from : Z) (cs : list ascii) :
  0 <= from ->
  Forall (fun c => 32 <= JS.charCode c < 128) cs ->
  (forall i c, cs !! i = Some c ->
     buf !! (Z.to_nat from + i)%nat = Some (JS.charCode c)) ->
  readName buf (Some from) (Z.of_nat (List.length cs)) = JS.ofChars cs.
Proof.
  intros Hfrom Hcs Hbuf. unfold readName, forZ. f_equal.
  rewrite Z.sub_0_r.
  induction cs as [|c cs IH] using rev_ind; [reflexivity|].
  rewrite length_app, Nat.add_1_r, seqZ_snoc, fold_left_app.
  apply Forall_app in Hcs as [Hcs Hc]. apply Forall_cons in Hc as [Hc _].
  rewrite IH; [|exact Hcs|].
  2:{ intros i x Hx. apply Hbuf. now apply lookup_app_l_Some. }
  cbn [fold_left JS.add]. unfold JS.u8get.
  destruct (Z.ltb_spec (from + (0 + Z.of_nat (List.length cs))) 0); [lia|].
  replace (Z.to_nat (from + (0 + Z.of_nat (List.length cs))))
    with (Z.to_nat from + List.length cs)%nat by lia.
  rewrite (Hbuf (List.length cs) c) by (now rewrite list_lookup_middle).
  unfold JS.geb, JS.leb, JS.ltb.
  destruct (Z.leb_spec 32 (JS.charCode c)); [|lia].
  destruct (Z.ltb_spec (JS.charCode c) 128); [|lia].
  cbn [andb]. now rewrite fromCharCode_charCode.
Qed.

(** ** Reading back a header of [createTIFile] *)

Lemma readHeader_tifilesBuffer (fileName name : string)
    (b8 b9 b10 b11 b12 b13 b14 b15 : Z) (rest : list Z) :
  validName name ->
  let sectors := JS.bor (Some (JS.shl (Some b8) 8)) (Some b9) in
  readHeader fileName (tifilesBuffer b8 b9 b10 b11 b12 b13 b14 b15 name rest) false
  = mkHeader name (Some sectors) (Some b11) (Some b12) (Some b13)
      (JS.shr (Some (JS.band (Some b10) (Some 0x80))) 7)
      (JS.shr (Some (JS.band (Some b10) (Some 0x02))) 1)
      (JS.band (Some b10) (Some 0x01))
      (contentLength (Some sectors) (Some b12)) 0x80 false.
Proof.
  intros [[Hpos Hlen] Hname] sectors. unfold JS.strlen in Hpos, Hlen.
  set (buf := tifilesBuffer b8 b9 b10 b11 b12 b13 b14 b15 name rest).
  assert (Hcs : Forall (fun c => JS.isWhiteSpace c = false /\ 32 <= JS.charCode c < 128
                                 /\ JS.charCode c <> 0xCA) (JS.chars name)).
  { eapply Forall_impl; [exact Hname|]. intros c Hc. now apply isNameChar_facts. }
  set (field := JS.chars name ++ replicate (10 - String.length name) " "%char).
  assert (Hfield : forall i c, field !! i = Some c ->
                     buf !! (Z.to_nat 16 + i)%nat = Some (JS.charCode c)).
  { intros i c Hi. change (Z.to_nat 16) with 16%nat.
    unfold buf, tifilesBuffer.
    rewrite lookup_app_r by (cbn [List.length]; lia).
    cbn [List.length]. replace (16 + i - 16)%nat with i by lia.
    apply lookup_app_l_Some.
    replace (map JS.charCode (JS.chars name) ++ replicate (10 - String.length name) 32)
      with (map JS.charCode field)
      by (unfold field; rewrite map_app; f_equal; clear;
          induction (10 - String.length name)%nat as [|k IH];
          [reflexivity|cbn [replicate map]; now rewrite IH]).
    rewrite list_lookup_fmap, Hi. reflexivity. }
  assert (Hlenf : List.length field = 10%nat).
  { unfold field. rewrite length_app, length_replicate, length_chars. lia. }
  assert (Hprint : Forall (fun c => 32 <= JS.charCode c < 128) field).
  { unfold field. apply Forall_app. split.
    - eapply Forall_impl; [exact Hcs|]. intros c Hc. apply Hc.
    - apply Forall_replicate. vm_compute. split; congruence. }
  assert (Hrn : readName buf (Some 16) 10 = JS.ofChars field).
  { change 10 with (Z.of_nat 10). rewrite <- Hlenf.
    apply readName_chars; [lia|exact Hprint|exact Hfield]. }
  assert (Htrim : JS.trim (readName buf (Some 16) 10) = name).
  { rewrite Hrn. unfold field. rewrite trim_padded, ofChars_chars; [reflexivity|].
    eapply Forall_impl; [exact Hcs|]. intros c Hc. apply Hc. }
  assert (H16 : JS.neqb (JS.u8get buf (Some 16)) 0xCA = true).
  { destruct (JS.chars name) as [|c cs] eqn:E.
    - exfalso. pose proof (length_chars name) as Hl. rewrite E in Hl.
      cbn [List.length] in Hl. lia.
    - unfold JS.u8get. change (16 <? 0) with false. cbv iota.
      pose proof (Hfield 0%nat c) as H0. rewrite Nat.add_0_r in H0.
      rewrite H0 by (unfold field; try rewrite E; reflexivity).
      apply Forall_cons in Hcs as [(_ & _ & Hc) _].
      unfold JS.neqb, JS.eqb. now apply negb_true_iff, Z.eqb_neq. }
  unfold readHeader.
  change (isTIFILES buf) with true. cbv iota.
  rewrite H16. cbn [negb andb]. rewrite Htrim.
  destruct (Z.ltb_spec 0 (JS.strlen name)); [|unfold JS.strlen in *; lia].
  reflexivity.
Qed.

(** ** A PROGRAM through [createTIFile] and [loadTIFile] *)

Lemma map_const_seqZ {A : Type} (x : A) (m : Z) (k : nat) :
  map (fun _ : Z => x) (seqZ m (Z.of_nat k)) = replicate k x.
Proof.
  unfold seqZ. rewrite Nat2Z.id. generalize 0%nat.
  induction k as [|k IH]; intros s; [reflexivity|].
  cbn [seq fmap list_fmap replicate map]. f_equal. apply IH.
Qed.

Lemma map_replicate {A B : Type} (f : A -> B) (k : nat) (x : A) :
  map f (replicate k x) = replicate k (f x).
Proof. induction k as [|k IH]; [reflexivity|]. cbn [replicate map]. now rewrite IH. Qed.

Lemma stringBytes_name (name : string) :
  JS.strlen name <= 10 ->
  stringBytes name 10
  = map (fun c => Some (JS.charCode c)) (JS.chars name)
    ++ replicate (10 - String.length name) (Some 32).
Proof.
  intros Hlen. unfold JS.strlen in Hlen. unfold stringBytes, JS.strlen.
  rewrite take_ge by (rewrite length_chars; lia).
  replace (10 - Z.of_nat (String.length name))
    with (Z.of_nat (10 - String.length name)) by lia.
  now rewrite map_const_seqZ.
Qed.

Lemma charCode_range (c : ascii) : 0 <= JS.charCode c < 256.
Proof. unfold JS.charCode. pose proof (nat_ascii_bounded c). lia. Qed.

Lemma forZ_collect {A : Type} (g : Z -> A) (n : nat) :
  forZ 0 (Some (Z.of_nat n)) (fun i acc => acc ++ [g i]) []
  = map g (seqZ 0 (Z.of_nat n)).
Proof.
  unfold forZ. rewrite Z.sub_0_r.
  induction n as [|n IH]; [reflexivity|].
  rewrite seqZ_snoc, fold_left_app, IH, map_app. reflexivity.
Qed.

Lemma ceilDiv_bounds (a : Z) :
  0 <= a -> 0 <= DiskFile.ceilDiv a 256
            /\ DiskFile.ceilDiv a 256 * 256
               - (if 0 <? a mod 256 then 256 - a mod 256 else 0) = a.
Proof.
  intros Ha. unfold DiskFile.ceilDiv.
  pose proof (Z.div_mod a 256 ltac:(lia)) as Hdm.
  pose proof (Z.mod_pos_bound a 256 ltac:(lia)) as Hm.
  pose proof (Z.div_mod (- a) 256 ltac:(lia)) as Hdm'.
  pose proof (Z.mod_pos_bound (- a) 256 ltac:(lia)) as Hm'.
  destruct (Z.ltb_spec 0 (a mod 256)); lia.
Qed.

(** The bytes [createTIFile] makes of a PROGRAM entry. *)
Lemma createTIFile_program (name : string) (program : list Z) (d : t) :
  validName name ->
  Forall (fun b => 0 <= b < 256) program ->
  DiskFile.ceilDiv (Z.of_nat (List.length program)) 256 < 65536 ->
  getFile name d = Some (programFile name program) ->
  let len := Z.of_nat (List.length program) in
  let S := DiskFile.ceilDiv len 256 in
  createTIFile name d
  = Some (tifilesBuffer (S / 256) (S mod 256) 1 0 (len mod 256) 0 0 0 name
            (replicate 102 0 ++ program)).
Proof.
  intros [[Hpos Hlen] Hname] Hprog HS Hget len S.
  assert (HSr : 0 <= S < 65536)
    by (split; [apply ceilDiv_bounds; unfold len; lia|exact HS]).
  assert (Hmod : 0 <= len mod 256 < 256) by (apply Z.mod_pos_bound; lia).
  unfold createTIFile. rewrite Hget.
  destruct (createTIFile_header_eq name (programFile name program)) as [-> Hl].
  unfold createTIFile_content.
  change (DiskFile.fileType (programFile name program) =? Disk.FileType_DATA)
    with false. cbv iota.
  change (DiskFile.program (programFile name program)) with program.
  rewrite <- Hl at 1.
  rewrite (fold_append (fun b : Z => Some b)). f_equal.
  cbn [JS.toUint8Array]. unfold tiHeader.
  change (DiskFile.getSectorCount (programFile name program)) with S.
  change (DiskFile.getEOFOffset (programFile name program)) with (len mod 256).
  change (statusFlags (programFile name program)) with 1.
  change (level3Records (programFile name program)) with 0.
  change (DiskFile.recordLength (programFile name program)) with (Some 0).
  change (DiskFile.fileType (programFile name program) =? Disk.FileType_DATA)
    with false.
  cbn [andb]. unfold wordBytes.
  rewrite word_hi, word_lo by lia.
  rewrite stringBytes_name by exact Hlen.
  change (stringBytes "TIFILES" 7)
    with [Some 84; Some 73; Some 70; Some 73; Some 76; Some 69; Some 83].
  unfold byteOf. rewrite !word_lo by lia.
  change (JS.band (Some 0) (Some 255)) with 0.
  change (JS.shr (Some (JS.band (Some 0) (Some 65280))) 8) with 0.
  unfold tifilesBuffer. rewrite !map_app. cbn [map app JS.ToUint8].
  assert (Hhi : 0 <= S / 256 < 256)
    by (split; [apply Z.div_pos; lia|apply Z.div_lt_upper_bound; lia]).
  rewrite (Z.mod_small (S / 256)), !Z.mod_mod by lia.
  change (7 mod 256) with 7. change (1 mod 256) with 1. change (0 mod 256) with 0.
  do 16 f_equal.
  rewrite <- !app_assoc. f_equal.
  { rewrite map_map. apply map_ext. intros c. cbn [JS.ToUint8].
    apply Z.mod_small, charCode_range. }
  rewrite !map_replicate. cbn [JS.ToUint8]. f_equal. f_equal.
  rewrite map_map. cbn [JS.ToUint8].
  clear - Hprog. induction Hprog as [|b l Hb _ IH]; [reflexivity|].
  cbn [map]. rewrite IH, Z.mod_small by lia. reflexivity.
Qed.

Lemma length_tifilesBuffer (b8 b9 b10 b11 b12 b13 b14 b15 : Z) (name : string)
    (rest : list Z) :
  JS.strlen name <= 10 ->
  Z.of_nat (List.length (tifilesBuffer b8 b9 b10 b11 b12 b13 b14 b15 name rest))
  = 26 + Z.of_nat (List.length rest).
Proof.
  intros Hlen. unfold JS.strlen in Hlen. unfold tifilesBuffer.
  rewrite !length_app, length_map, length_replicate, length_chars.
  cbn [List.length]. lia.
Qed.

Lemma u8get_tifilesBuffer_rest (b8 b9 b10 b11 b12 b13 b14 b15 : Z) (name : string)
    (rest : list Z) (i : nat) :
  JS.strlen name <= 10 ->
  JS.u8get (tifilesBuffer b8 b9 b10 b11 b12 b13 b14 b15 name rest)
           (Some (26 + Z.of_nat i))
  = rest !! i.
Proof.
  intros Hlen. unfold JS.strlen in Hlen. unfold JS.u8get, tifilesBuffer.
  destruct (Z.ltb_spec (26 + Z.of_nat i) 0); [lia|].
  rewrite app_assoc.
  rewrite lookup_app_r;
    rewrite !length_app, length_map, length_replicate, length_chars;
    cbn [List.length]; [|lia].
  f_equal. lia.
Qed.

(** X16.  A PROGRAM entry that [createTIFile] exports comes back from
    [loadTIFile] as it was: for a name of one to ten characters among
    letters, digits, ['_'] and ['-'], and a program of at least one byte
    and fewer than 65536 sectors, the export has 128 bytes of header and
    the bytes of the program, and its import, under any name of the
    imported file, returns the same entry and files it.  The sector count
    and the end of file offset of the header are those of the model of
    [DiskFile] from the spec. *)
Theorem tifiles_program_roundtrip (name importName : string) (program : list Z)
    (d d' : t) :
  validName name ->
  Forall (fun b => 0 <= b < 256) program ->
  program <> [] ->
  DiskFile.ceilDiv (Z.of_nat (List.length program)) 256 < 65536 ->
  getFile name d = Some (programFile name program) ->
  exists out,
    createTIFile name d = Some out /\
    Z.of_nat (List.length out) = 128 + Z.of_nat (List.length program) /\
    loadTIFile importName (Some out) false d'
    = Return (Some (programFile name program),
              putFile (programFile name program) d').
Proof.
  intros Hname Hprog Hne HS Hget.
  pose proof (createTIFile_program name program d Hname Hprog HS Hget) as Hout.
  cbv zeta in Hout.
  set (len := Z.of_nat (List.length program)) in *.
  set (S := DiskFile.ceilDiv len 256) in *.
  assert (Hlen0 : 0 < len)
    by (unfold len; destruct program; [congruence|cbn [List.length]; lia]).
  destruct (ceilDiv_bounds len ltac:(lia)) as [HS0 Hcl]. fold S in HS0, Hcl.
  assert (Hmod : 0 <= len mod 256 < 256) by (apply Z.mod_pos_bound; lia).
  assert (Hhi : 0 <= S / 256 < 256)
    by (split; [apply Z.div_pos; lia|apply Z.div_lt_upper_bound; lia]).
  assert (Hlo : 0 <= S mod 256 < 256) by (apply Z.mod_pos_bound; lia).
  pose proof (Z.div_mod S 256 ltac:(lia)) as Hdm.
  destruct Hname as [Hn1 Hn2].
  set (out := tifilesBuffer (S / 256) (S mod 256) 1 0 (len mod 256) 0 0 0 name
                (replicate 102 0 ++ program)) in *.
  assert (Hlen : Z.of_nat (List.length out) = 128 + len).
  { unfold out. rewrite length_tifilesBuffer by lia.
    rewrite length_app, length_replicate. fold len. lia. }
  exists out. split; [exact Hout|]. split; [exact Hlen|].
  assert (Hcontent : contentLength (Some S) (Some (len mod 256)) = Some len).
  { unfold contentLength, JS.gtb, JS.ltb, JS.mul, JS.sub.
    destruct (0 <? len mod 256); f_equal; lia. }
  assert (Hh : readHeader importName out false
               = mkHeader name (Some S) (Some 0) (Some (len mod 256)) (Some 0)
                          0 0 1 (Some len) 128 false).
  { unfold out.
    rewrite (readHeader_tifilesBuffer importName name) by (split; assumption).
    cbv zeta. rewrite bor_word by lia.
    replace (S / 256 * 256 + S mod 256) with S by lia.
    rewrite Hcontent. reflexivity. }
  unfold loadTIFile.
  destruct (Z.ltb_spec 128 (Z.of_nat (List.length out))); [|lia].
  cbv zeta. rewrite Hh.
  cbn [sectorOffset fileLength JS.add JS.geb JS.leb]. rewrite Hlen.
  destruct (Z.leb_spec (128 + len) (128 + len)); [|lia].
  unfold readContent.
  cbn [fileType fileLength sectorOffset tiFileName].
  change (1 =? Disk.FileType_DATA) with false. cbv iota.
  unfold JS.ltb. destruct (Z.ltb_spec len 0); [lia|].
  unfold len. rewrite forZ_collect.
  assert (Hread : map (fun i => JS.ToUint8 (JS.u8get out (Some (128 + i))))
                      (seqZ 0 (Z.of_nat (List.length program))) = program).
  { apply list_eq. intros i. rewrite list_lookup_fmap.
    destruct (program !! i) as [b|] eqn:E.
    - pose proof (lookup_lt_Some _ _ _ E) as Hi.
      rewrite lookup_seqZ_lt by lia. cbn [fmap option_fmap option_map].
      f_equal. unfold out.
      replace (128 + (0 + Z.of_nat i)) with (26 + Z.of_nat (102 + i)) by lia.
      rewrite u8get_tifilesBuffer_rest by lia.
      rewrite lookup_app_r by (rewrite length_replicate; lia).
      rewrite length_replicate. replace (102 + i - 102)%nat with i by lia.
      rewrite E. cbn [JS.ToUint8]. apply Z.mod_small.
      rewrite Forall_forall in Hprog. apply Hprog.
      now apply list_elem_of_lookup_2 in E.
    - pose proof (lookup_ge_None_1 _ _ E) as Hi.
      rewrite lookup_seqZ_ge by lia. reflexivity. }
  rewrite Hread. reflexivity.
Qed.

Lemma tifiles_program_roundtrip_witness :
  let pf := programFile "GAME" [1; 2; 3] in
  validName "GAME" /\
  exists out,
    createTIFile "GAME" (putFile pf (new "DISK" false)) = Some out /\
    Z.of_nat (List.length out) = 128 + Z.of_nat (List.length [1; 2; 3]) /\
    loadTIFile "other.bin" (Some out) false (new "COPY" false)
    = Return (Some pf, putFile pf (new "COPY" false)).
Proof.
  assert (Hn : validName "GAME").
  { split; [vm_compute; split; [reflexivity|discriminate]|].
    repeat (apply Forall_cons; split; [reflexivity|]). apply Forall_nil_2. }
  split; [exact Hn|].
  apply (tifiles_program_roundtrip "GAME" "other.bin" [1; 2; 3]
           (putFile (programFile "GAME" [1; 2; 3]) (new "DISK" false))
           (new "COPY" false)).
  - exact Hn.
  - repeat (apply Forall_cons; split; [lia|]). apply Forall_nil_2.
  - discriminate.
  - vm_compute. reflexivity.
  - reflexivity.
Defined.

(** X17.  A PROGRAM entry without bytes does not come back: its export is
    the header of 128 bytes alone, which [loadTIFile] turns down as too
    short, returning [null] and leaving the image as it was. *)
Theorem tifiles_empty_program_rejected (name importName : string) (d d' : t) :
  validName name ->
  getFile name d = Some (programFile name []) ->
  exists out,
    createTIFile name d = Some out /\
    List.length out = 128%nat /\
    loadTIFile importName (Some out) false d' = Return (None, d').
Proof.
  intros Hname Hget.
  pose proof (createTIFile_program name [] d Hname (Forall_nil_2 _)
                ltac:(vm_compute; reflexivity) Hget) as Hout.
  cbv zeta in Hout.
  eexists. split; [exact Hout|].
  match goal with |- List.length ?o = _ /\ _ =>
    assert (Hlen : Z.of_nat (List.length o) = 128)
      by (rewrite length_tifilesBuffer by apply Hname; reflexivity)
  end.
  split; [lia|].
  unfold loadTIFile.
  match goal with |- context [128 <? ?n] => destruct (Z.ltb_spec 128 n) end;
    [lia|reflexivity].
Qed.

Lemma tifiles_empty_program_rejected_witness :
  validName "EMPTY" /\
  exists out,
    createTIFile "EMPTY" (putFile (programFile "EMPTY" []) (new "DISK" false))
    = Some out /\
    List.length out = 128%nat /\
    loadTIFile "EMPTY" (Some out) false (new "COPY" true)
    = Return (None, new "COPY" true).
Proof.
  assert (Hn : validName "EMPTY").
  { split; [vm_compute; split; [reflexivity|discriminate]|].
    repeat (apply Forall_cons; split; [reflexivity|]). apply Forall_nil_2. }
  split; [exact Hn|].
  apply (tifiles_empty_program_rejected "EMPTY" "EMPTY"
           (putFile (programFile "EMPTY" []) (new "DISK" false))
           (new "COPY" true)); [exact Hn|reflexivity].
Defined.

(** ** Writing into a zero-filled typed array from the front *)

Lemma set_zeroTail (P : list Z) (N : nat) (v : JS.number) :
  (List.length P < N)%nat ->
  JS.set (zeroTail P N) (ulen P) v = zeroTail (P ++ [JS.ToUint8 v]) N.
Proof.
  intros HP. unfold zeroTail, JS.set, ulen.
  destruct (Z.ltb_spec (Z.of_nat (List.length P)) 0); [lia|].
  rewrite Nat2Z.id, insert_app_r_alt, Nat.sub_diag by lia.
  destruct (N - List.length P)%nat as [|m] eqn:E; [lia|].
  rewrite length_app. cbn [List.length replicate].
  replace (N - (List.length P + 1))%nat with m by lia.
  now rewrite <- app_assoc.
Qed.

Lemma ulen_snoc (P : list Z) (x : Z) : ulen (P ++ [x]) = ulen P + 1.
Proof. unfold ulen. rewrite length_app. cbn [List.length]. lia. Qed.

Lemma fold_write_zeroTail {X : Type} (f : X -> JS.number) (xs : list X)
    (P : list Z) (N : nat) :
  (List.length P + List.length xs <= N)%nat ->
  fold_left (fun '(data, n) x => (JS.set data n (f x), n + 1)) xs
            (zeroTail P N, ulen P)
  = (zeroTail (P ++ map (fun x => JS.ToUint8 (f x)) xs) N,
     ulen (P ++ map (fun x => JS.ToUint8 (f x)) xs)).
Proof.
  revert P. induction xs as [|x xs IH]; intros P HP; cbn [fold_left map].
  - now rewrite app_nil_r.
  - cbn [List.length] in HP. rewrite set_zeroTail by lia.
    rewrite <- (ulen_snoc P (JS.ToUint8 (f x))).
    rewrite IH by (rewrite length_app; cbn [List.length]; lia).
    now rewrite <- app_assoc.
Qed.

Lemma writeByte_zeroTail (P : list Z) (N : nat) (b : JS.number) :
  (List.length P < N)%nat ->
  writeByte (zeroTail P N) (ulen P) b
  = (zeroTail (P ++ [JS.ToUint8 (byteOf b)]) N, ulen (P ++ [JS.ToUint8 (byteOf b)])).
Proof.
  intros HP. unfold writeByte. rewrite set_zeroTail, ulen_snoc by lia. reflexivity.
Qed.

Lemma writeWord_zeroTail (P : list Z) (N : nat) (w : JS.number) :
  (List.length P + 2 <= N)%nat ->
  writeWord (zeroTail P N) (ulen P) w
  = (zeroTail (P ++ map JS.ToUint8 (wordBytes w)) N,
     ulen (P ++ map JS.ToUint8 (wordBytes w))).
Proof.
  intros HP. unfold writeWord, wordBytes. rewrite set_zeroTail by lia.
  match goal with |- context [zeroTail (P ++ [?x]) N] =>
    rewrite <- (ulen_snoc P x) end.
  rewrite set_zeroTail by (rewrite length_app; cbn [List.length]; lia).
  cbn [map]. rewrite <- !app_assoc. cbn [app]. f_equal.
  unfold ulen. rewrite !length_app. cbn [List.length]. lia.
Qed.

Lemma writeString_zeroTail (P : list Z) (N : nat) (str : string) (padLen : Z) :
  0 <= padLen -> (List.length P + Z.to_nat padLen <= N)%nat ->
  writeString (zeroTail P N) (ulen P) str padLen
  = (zeroTail (P ++ map JS.ToUint8 (stringBytes str padLen)) N,
     ulen (P ++ map JS.ToUint8 (stringBytes str padLen))).
Proof.
  intros Hpad HP. unfold writeString, stringBytes.
  rewrite (fold_write_zeroTail (fun c => Some (JS.charCode c)))
    by (rewrite length_take, length_chars; unfold JS.strlen; lia).
  rewrite (fold_write_zeroTail (fun _ : Z => Some 32))
    by (rewrite length_app, length_map, length_take, length_chars, length_seqZ;
        unfold JS.strlen; lia).
  now rewrite <- app_assoc, map_app, !map_map.
Qed.

Lemma zeroTail_pad (P : list Z) (N j : nat) :
  (List.length P + j <= N)%nat ->
  zeroTail P N = zeroTail (P ++ replicate j 0) N.
Proof.
  intros HP. unfold zeroTail. rewrite <- app_assoc. do 2 f_equal.
  rewrite length_app, length_replicate, <- replicate_add. f_equal. lia.
Qed.

Lemma fold_set_zeroTail (v : JS.number) (P : list Z) (N k : nat) :
  (List.length P + k <= N)%nat ->
  fold_left (fun dskImg i => JS.set dskImg i v) (seqZ (ulen P) (Z.of_nat k))
            (zeroTail P N)
  = zeroTail (P ++ replicate k (JS.ToUint8 v)) N.
Proof.
  induction k as [|k IH]; intros HP.
  - cbn [replicate]. now rewrite app_nil_r.
  - rewrite seqZ_snoc, fold_left_app, IH by lia. cbn [fold_left].
    replace (ulen P + Z.of_nat k) with (ulen (P ++ replicate k (JS.ToUint8 v)))
      by (unfold ulen; rewrite length_app, length_replicate; lia).
    rewrite set_zeroTail by (rewrite length_app, length_replicate; lia).
    rewrite <- app_assoc. do 2 f_equal.
    change [JS.ToUint8 v] with (replicate 1 (JS.ToUint8 v)).
    rewrite <- replicate_add. f_equal. lia.
Qed.

(** ** A volume without files through [createBinaryImage] and [loadBinaryImage] *)

Lemma length_volumeHeader (d : t) : List.length (volumeHeader d) = 20%nat.
Proof.
  unfold volumeHeader. rewrite length_map, !length_app.
  pose proof (alen_stringBytes (name d) 10 ltac:(lia)) as H1.
  pose proof (alen_stringBytes "DSK" 3 ltac:(lia)) as H2.
  unfold alen in H1, H2. cbn [List.length wordBytes]. lia.
Qed.

Lemma slotEntries_blank (fileBuffer : list Z) (sectorsPerAU : Z) :
  (forall k, (256 <= k < 512)%nat -> fileBuffer !! k = Some 0) ->
  slotEntries fileBuffer sectorsPerAU = [].
Proof.
  intros Hblank. unfold slotEntries. apply omap_all_None, Forall_seqZ.
  intros i Hi. unfold slotEntry.
  rewrite readWord_zero; [reflexivity|lia| |]; apply Hblank; lia.
Qed.

Lemma createBinaryImage_blank (localeCompare : string -> string -> Z) (d : t) (T : Z) :
  files d = [] -> totalSectors (geometry d) = Some T -> 1 <= T ->
  createBinaryImage localeCompare d
  = blankSector0 d ++ replicate (Z.to_nat (T * 256) - 256) 0.
Proof.
  intros Hfiles HT HT1. unfold createBinaryImage.
  unfold getFilesArray. rewrite Hfiles. cbn [map sort foldr List.length].
  change (Z.to_nat (Z.min (Z.of_nat 0) 127)) with 0%nat. cbn [take fold_left].
  set (N := Z.to_nat (T * 256)).
  assert (HN : (256 <= N)%nat) by lia.
  replace (JS.Uint8Array (JS.newUint8Array (JS.mul (totalSectors (geometry d)) (Some 256))))
    with (zeroTail [] N)
    by (rewrite HT; unfold zeroTail; cbn [JS.mul JS.newUint8Array app List.length];
        now rewrite Nat.sub_0_r).
  change (writeString (zeroTail [] N) 0) with (writeString (zeroTail [] N) (ulen [])).
  rewrite writeString_zeroTail by (cbn [List.length]; lia).
  cbn [app].
  assert (L1 : List.length (map JS.ToUint8 (stringBytes (name d) 10)) = 10%nat).
  { rewrite length_map. pose proof (alen_stringBytes (name d) 10 ltac:(lia)) as H.
    unfold alen in H. lia. }
  rewrite writeWord_zeroTail by lia.
  rewrite writeByte_zeroTail by (rewrite !length_app; cbn [List.length map wordBytes]; lia).
  rewrite writeString_zeroTail
    by (rewrite ?length_app; cbn [List.length map wordBytes]; lia).
  assert (L2 : List.length (map JS.ToUint8 (stringBytes "DSK" 3)) = 3%nat) by reflexivity.
  rewrite !writeByte_zeroTail
    by (rewrite ?length_app, ?L1, ?L2; cbn [List.length map wordBytes]; lia).
  match goal with |- context [writeByte (zeroTail ?P N) 56 ?b] =>
    assert (EP : P = volumeHeader d)
      by (unfold volumeHeader; rewrite !map_app; cbn [map];
          rewrite <- !app_assoc; reflexivity);
    rewrite EP
  end.
  pose proof (length_volumeHeader d) as L20.
  rewrite (zeroTail_pad (volumeHeader d) N 36) by lia.
  replace 56 with (ulen (volumeHeader d ++ replicate 36 0))
    by (unfold ulen; rewrite length_app, length_replicate, L20; reflexivity).
  rewrite writeByte_zeroTail by (rewrite length_app, length_replicate; lia).
  match goal with |- context [fold_left _ (seqZ 236 _) (zeroTail ?P N)] =>
    assert (LP : List.length P = 57%nat)
      by (rewrite !length_app, length_replicate, L20; reflexivity);
    rewrite (zeroTail_pad P N 179) by lia;
    replace 236 with (ulen (P ++ replicate 179 0))
      by (unfold ulen; rewrite length_app, length_replicate, LP; reflexivity);
    replace (255 + 1 - ulen (P ++ replicate 179 0)) with (Z.of_nat 20)
      by (unfold ulen; rewrite length_app, length_replicate, LP; reflexivity);
    rewrite fold_set_zeroTail by (rewrite length_app, length_replicate; lia)
  end.
  unfold zeroTail. cbn [JS.toUint8Array].
  rewrite !length_app, !length_replicate, L20. cbn [List.length].
  unfold blankSector0. rewrite <- !app_assoc. cbn [app].
  do 3 f_equal.
  unfold byteOf. cbn [JS.ToUint8].
  destruct (getSectorsPerAllocationUnit d =? 1); reflexivity.
Qed.

Lemma loadBinaryImage_name (fileBuffer : list Z) (d : t) :
  name (loadBinaryImage fileBuffer d) = JS.trim (readName fileBuffer (Some 0) 10).
Proof. reflexivity. Qed.

Lemma loadBinaryImage_geometry (fileBuffer : list Z) (d : t) :
  geometry (loadBinaryImage fileBuffer d)
  = mkGeometry (readWord fileBuffer (Some 0x0A))
               (JS.u8get fileBuffer (Some 0x0C)) (JS.u8get fileBuffer (Some 0x11))
               (JS.u8get fileBuffer (Some 0x12)) (JS.u8get fileBuffer (Some 0x13)).
Proof. reflexivity. Qed.

Lemma byte_stored (b : Z) : 0 <= b < 256 -> JS.ToUint8 (byteOf (Some b)) = b.
Proof.
  intros Hb. unfold byteOf. cbn [JS.ToUint8].
  rewrite word_lo, Z.mod_mod, Z.mod_small by lia. reflexivity.
Qed.

(** X18.  A volume without files comes back from its image: when the name
    has one to ten characters among letters, digits, ['_'] and ['-'], the
    volume has from 2 to 65535 sectors and the other geometry values are
    bytes, [createBinaryImage] makes an image of 256 bytes a sector from
    which [loadBinaryImage], on any disk, restores the name and the
    geometry, finds no file, and which it keeps as the cached image. *)
Theorem blank_volume_roundtrip (localeCompare : string -> string -> Z) (d d0 : t)
    (T spt tps sides dens : Z) :
  validName (name d) ->
  files d = [] ->
  geometry d = mkGeometry (Some T) (Some spt) (Some tps) (Some sides) (Some dens) ->
  2 <= T < 65536 ->
  0 <= spt < 256 /\ 0 <= tps < 256 /\ 0 <= sides < 256 /\ 0 <= dens < 256 ->
  let image := createBinaryImage localeCompare d in
  let d' := loadBinaryImage image d0 in
  Z.of_nat (List.length image) = T * 256 /\
  name d' = name d /\ geometry d' = geometry d /\ files d' = [] /\
  binaryImage d' = Some image.
Proof.
  intros [[Hn0 Hn1] Hname] Hfiles Hgeo HT (Hspt & Htps & Hsides & Hdens) image d'.
  assert (HTs : totalSectors (geometry d) = Some T) by (now rewrite Hgeo).
  pose proof (createBinaryImage_blank localeCompare d T Hfiles HTs ltac:(lia)) as Himg.
  fold image in Himg.
  pose proof (length_volumeHeader d) as L20.
  assert (L256 : List.length (blankSector0 d) = 256%nat).
  { unfold blankSector0. rewrite !length_app, !length_replicate, L20. reflexivity. }
  assert (Hlen : Z.of_nat (List.length image) = T * 256).
  { rewrite Himg, length_app, length_replicate, L256. lia. }
  assert (Hhead : forall i, (i < 20)%nat -> image !! i = volumeHeader d !! i).
  { intros i Hi. rewrite Himg. unfold blankSector0. rewrite <- !app_assoc.
    apply lookup_app_l. lia. }
  assert (Hblank : forall k, (256 <= k < 512)%nat -> image !! k = Some 0).
  { intros k Hk. rewrite Himg, lookup_app_r by lia.
    apply lookup_replicate_2. rewrite L256. lia. }
  assert (Hcs : Forall (fun c => JS.isWhiteSpace c = false /\ 32 <= JS.charCode c < 128
                                 /\ JS.charCode c <> 0xCA) (JS.chars (name d))).
  { eapply Forall_impl; [exact Hname|]. intros c Hc. now apply isNameChar_facts. }
  unfold JS.strlen in Hn0, Hn1.
  set (field := JS.chars (name d) ++ replicate (10 - String.length (name d)) " "%char).
  assert (Hvh : volumeHeader d
                = map JS.charCode field
                  ++ [T / 256; T mod 256; spt; 68; 83; 75; 32; tps; sides; dens]).
  { unfold volumeHeader. rewrite Hgeo.
    cbn [totalSectors sectorsPerTrack tracksPerSide numberOfSides density].
    rewrite stringBytes_name by (unfold JS.strlen; lia).
    rewrite !map_app. cbn [map wordBytes app].
    rewrite !byte_stored by lia. rewrite word_hi, word_lo by lia.
    cbn [JS.ToUint8].
    assert (Hhi : 0 <= T / 256 < 256)
      by (split; [apply Z.div_pos; lia|apply Z.div_lt_upper_bound; lia]).
    rewrite (Z.mod_small (T / 256)), Z.mod_mod by lia.
    unfold field. rewrite map_app, !map_map, !map_replicate, <- !app_assoc.
    f_equal.
    apply map_ext. intros c. cbn [JS.ToUint8]. apply Z.mod_small, charCode_range. }
  assert (Hlenf : List.length field = 10%nat).
  { unfold field. rewrite length_app, length_replicate, length_chars. lia. }
  assert (Hget : forall i, (10 <= i < 20)%nat ->
            JS.u8get image (Some (Z.of_nat i))
            = [T / 256; T mod 256; spt; 68; 83; 75; 32; tps; sides; dens] !! (i - 10)%nat).
  { intros i Hi. unfold JS.u8get.
    destruct (Z.ltb_spec (Z.of_nat i) 0); [lia|].
    rewrite Nat2Z.id, Hhead, Hvh by lia.
    rewrite lookup_app_r by (rewrite length_map; lia).
    rewrite length_map, Hlenf. reflexivity. }
  split; [exact Hlen|]. split.
  { unfold d'. rewrite loadBinaryImage_name.
    assert (Hrn : readName image (Some 0) 10 = JS.ofChars field).
    { change 10 with (Z.of_nat 10). rewrite <- Hlenf.
      apply readName_chars; [lia| |].
      - unfold field. apply Forall_app. split.
        + eapply Forall_impl; [exact Hcs|]. intros c Hc. apply Hc.
        + apply Forall_replicate. vm_compute. split; congruence.
      - intros i c Hi. change (Z.to_nat 0 + i)%nat with i.
        pose proof (lookup_lt_Some _ _ _ Hi) as Hlt.
        rewrite Hhead, Hvh by lia.
        rewrite lookup_app_l by (rewrite length_map; lia).
        rewrite list_lookup_fmap, Hi. reflexivity. }
    rewrite Hrn. unfold field. rewrite trim_padded, ofChars_chars; [reflexivity|].
    eapply Forall_impl; [exact Hcs|]. intros c Hc. apply Hc. }
  split.
  { unfold d'. rewrite loadBinaryImage_geometry, Hgeo.
    unfold readWord. cbn [JS.add].
    assert (H10 : JS.u8get image (Some 10) = Some (T / 256))
      by (apply (Hget 10%nat); lia).
    assert (H11 : JS.u8get image (Some 11) = Some (T mod 256))
      by (apply (Hget 11%nat); lia).
    assert (H12 : JS.u8get image (Some 12) = Some spt)
      by (apply (Hget 12%nat); lia).
    assert (H17 : JS.u8get image (Some 17) = Some tps)
      by (apply (Hget 17%nat); lia).
    assert (H18 : JS.u8get image (Some 18) = Some sides)
      by (apply (Hget 18%nat); lia).
    assert (H19 : JS.u8get image (Some 19) = Some dens)
      by (apply (Hget 19%nat); lia).
    change (10 + 1) with 11. rewrite H10, H11, H12, H17, H18, H19.
    assert (Hhi : 0 <= T / 256 < 256)
      by (split; [apply Z.div_pos; lia|apply Z.div_lt_upper_bound; lia]).
    rewrite shl_byte by lia. cbn [JS.add].
    pose proof (Z.div_mod T 256 ltac:(lia)).
    do 2 f_equal. lia. }
  pose proof (loadBinaryImage_effects image d0) as H. cbv zeta in H.
  destruct H as (_ & Hf & Hb).
  rewrite (slotEntries_blank image _ Hblank) in Hf.
  split; [exact Hf|exact Hb].
Qed.

Lemma blank_volume_roundtrip_witness :
  let d := withTotalSectors (Some 360) (new "WORK" false) in
  let image := createBinaryImage rootCompare d in
  let d' := loadBinaryImage image (new "OTHER" true) in
  validName (name d) /\
  Z.of_nat (List.length image) = 360 * 256 /\
  name d' = name d /\ geometry d' = geometry d /\ files d' = [] /\
  binaryImage d' = Some image.
Proof.
  assert (Hn : validName "WORK").
  { split; [vm_compute; split; [reflexivity|discriminate]|].
    repeat (apply Forall_cons; split; [reflexivity|]). apply Forall_nil_2. }
  split; [exact Hn|].
  apply (blank_volume_roundtrip rootCompare
           (withTotalSectors (Some 360) (new "WORK" false)) (new "OTHER" true)
           360 18 2 2 2); [exact Hn|reflexivity|reflexivity|lia|lia].
Defined.

